(** * category-products-lister: a shallow embedding of the block and its properties

    The block [blocks/category-products-lister/category-products-lister.js]
    renders a grid of product cards into an authored container.  The file
    first embeds the JavaScript source (strings, DOM, the two fetch
    strategies, the card builder, the header and [decorate]); the theorems
    about it follow.

    - A string is its sequence of UTF-16 code units.
    - A product record has the fields of the response schema, each
      optional; a value of the block configuration is a string or an array
      of strings.
    - The functions the block imports or finds in the browser
      ([isAuthorEnvironment], [readBlockConfig], [createOptimizedPicture],
      [new URL], [fetch], the Unicode uppercase table) are the fields of a
      record, [platform]; every function of the block takes it as an
      argument.
    - An asynchronous function is the sequence of its steps: it returns
      the events of its run (strategy called, request sent, error logged)
      and its completion, a value or an exception. *)

From Stdlib Require Import String Ascii.
From Stdlib Require Import List NArith ZArith Bool Arith Lia.
Import ListNotations.

(** ** JavaScript strings

    A JavaScript string is a sequence of UTF-16 code units; a code unit is
    held in [N]. *)

Definition jsstring := list N.

Definition lit (s : string) : jsstring :=
  List.map N_of_ascii (list_ascii_of_string s).
Arguments lit s%_string.

(** Completion of an evaluation: a value, or an exception. *)

Inductive js_error := TypeError | URIError | SyntaxError.

Inductive completion (A : Type) :=
| Returns (a : A)
| Throws (e : js_error).
Arguments Returns {A} a.
Arguments Throws {A} e.

Module Str.

Fixpoint eqb (s t : jsstring) : bool :=
  match s, t with
  | [], [] => true
  | c :: s', d :: t' => N.eqb c d && eqb s' t'
  | _, _ => false
  end.

(** [s.length === 0], i.e. [!s] for a string. *)
Definition isEmpty (s : jsstring) : bool :=
  match s with [] => true | _ :: _ => false end.

(** [s.startsWith(p)] *)
Fixpoint startsWith (s p : jsstring) {struct p} : bool :=
  match p, s with
  | [], _ => true
  | d :: p', c :: s' => N.eqb c d && startsWith s' p'
  | _ :: _, [] => false
  end.

(** [s.endsWith(p)] *)
Definition endsWith (s p : jsstring) : bool :=
  Nat.leb (length p) (length s) && eqb (skipn (length s - length p) s) p.

(** [s.includes(p)] *)
Fixpoint includes (s p : jsstring) : bool :=
  startsWith s p || match s with [] => false | _ :: s' => includes s' p end.

(** [s.split(sep)] for a separator of one code unit. *)
Fixpoint split (sep : N) (s : jsstring) : list jsstring :=
  match s with
  | [] => [[]]
  | c :: s' =>
      if N.eqb c sep then [] :: split sep s'
      else match split sep s' with
           | [] => [[c]]
           | w :: ws => (c :: w) :: ws
           end
  end.

(** [l.join(sep)] *)
Fixpoint join (sep : jsstring) (l : list jsstring) : jsstring :=
  match l with
  | [] => []
  | [x] => x
  | x :: l' => x ++ sep ++ join sep l'
  end.

(** White space and line terminators, the code points [trim] removes. *)
Definition isWhiteSpace (c : N) : bool :=
  ((9 <=? c) && (c <=? 13) || (c =? 32) || (c =? 160) || (c =? 5760)
   || (8192 <=? c) && (c <=? 8202) || (c =? 8232) || (c =? 8233)
   || (c =? 8239) || (c =? 8287) || (c =? 12288) || (c =? 65279))%N.

Fixpoint trimStart (s : jsstring) : jsstring :=
  match s with
  | [] => []
  | c :: s' => if isWhiteSpace c then trimStart s' else s
  end.

Definition trimEnd (s : jsstring) : jsstring := rev (trimStart (rev s)).

(** [s.trim()] *)
Definition trim (s : jsstring) : jsstring := trimEnd (trimStart s).

(** Surrogates, and the code points of a string (an unpaired surrogate
    is a code point of its own). *)
Definition isLeadingSurrogate (c : N) : bool := ((55296 <=? c) && (c <=? 56319))%N.
Definition isTrailingSurrogate (c : N) : bool := ((56320 <=? c) && (c <=? 57343))%N.

Definition surrogatePairToCodePoint (hi lo : N) : N :=
  ((hi - 55296) * 1024 + (lo - 56320) + 65536)%N.

Fixpoint toCodePoints (s : jsstring) : list N :=
  match s with
  | [] => []
  | c :: s' =>
      if isLeadingSurrogate c then
        match s' with
        | d :: s'' =>
            if isTrailingSurrogate d
            then surrogatePairToCodePoint c d :: toCodePoints s''
            else c :: toCodePoints s'
        | [] => [c]
        end
      else c :: toCodePoints s'
  end.

Definition utf16Encode (cp : N) : jsstring :=
  (if cp <=? 65535 then [cp]
   else [(cp - 65536) / 1024 + 55296; (cp - 65536) mod 1024 + 56320])%N.

Definition fromCodePoints (l : list N) : jsstring := flat_map utf16Encode l.

Definition isAsciiLower (c : N) : bool := ((97 <=? c) && (c <=? 122))%N.
Definition isAsciiUpper (c : N) : bool := ((65 <=? c) && (c <=? 90))%N.

Definition asciiUpper (c : N) : N := if isAsciiLower c then (c - 32)%N else c.

(** [s.toUpperCase()]: every code point is replaced by its uppercase
    mapping.  The mapping of the ASCII range is computed here; the one of
    the other code points is the engine's Unicode table, [upper]. *)
Definition upperCodePoint (upper : N -> list N) (cp : N) : list N :=
  if (cp <? 128)%N then [asciiUpper cp] else upper cp.

Definition toUpperCase (upper : N -> list N) (s : jsstring) : jsstring :=
  fromCodePoints (flat_map (upperCodePoint upper) (toCodePoints s)).

(** *** encodeURIComponent *)

Definition isDigit (c : N) : bool := ((48 <=? c) && (c <=? 57))%N.

(** The characters [encodeURIComponent] leaves as they are: letters,
    digits and [- _ . ! ~ * ' ( )]. *)
Definition isUnreserved (c : N) : bool :=
  isAsciiLower c || isAsciiUpper c || isDigit c
  || existsb (N.eqb c) (lit "-_.!~*'()").

Definition hexDigit (d : N) : N :=
  nth (N.to_nat d) (lit "0123456789ABCDEF") 48%N.

Definition percent (octet : N) : jsstring :=
  [37; hexDigit (octet / 16); hexDigit (octet mod 16)]%N.

Definition utf8 (cp : N) : list N :=
  (if cp <? 128 then [cp]
   else if cp <? 2048 then [192 + cp / 64; 128 + cp mod 64]
   else if cp <? 65536 then
     [224 + cp / 4096; 128 + (cp / 64) mod 64; 128 + cp mod 64]
   else
     [240 + cp / 262144; 128 + (cp / 4096) mod 64;
      128 + (cp / 64) mod 64; 128 + cp mod 64])%N.

Definition percentEncode (cp : N) : jsstring := flat_map percent (utf8 cp).

Definition prepend (p : jsstring) (r : completion jsstring) : completion jsstring :=
  match r with
  | Returns s => Returns (p ++ s)
  | Throws e => Throws e
  end.

(** [encodeURIComponent(s)]: throws a [URIError] on an unpaired surrogate. *)
Fixpoint encodeURIComponent (s : jsstring) : completion jsstring :=
  match s with
  | [] => Returns []
  | c :: s' =>
      if isUnreserved c then prepend [c] (encodeURIComponent s')
      else if isLeadingSurrogate c then
        match s' with
        | d :: s'' =>
            if isTrailingSurrogate d
            then prepend (percentEncode (surrogatePairToCodePoint c d))
                         (encodeURIComponent s'')
            else Throws URIError
        | [] => Throws URIError
        end
      else if isTrailingSurrogate c then Throws URIError
      else prepend (percentEncode c) (encodeURIComponent s')
  end.

(** *** The two regular-expression replacements of [buildCard] *)

(** Case-insensitive comparison of an input code unit with a pattern
    character of the ASCII range (the [i] flag without the [u] flag): a
    code unit outside ASCII never canonicalizes to an ASCII one, so it is
    compared as it is. *)
Definition canonicalize (c : N) : N := if (c <? 128)%N then asciiUpper c else c.

(** The rest of [s] after a case-insensitive match of [p] at its start. *)
Fixpoint matchPrefixCI (p s : jsstring) {struct p} : option jsstring :=
  match p, s with
  | [], _ => Some s
  | d :: p', c :: s' =>
      if N.eqb (canonicalize c) (canonicalize d) then matchPrefixCI p' s' else None
  | _ :: _, [] => None
  end.

(** [s.replace(/^(a1|a2|...)/gi, "")]: the alternatives are tried in
    order at position 0, the only position [^] matches at; the search
    that the [g] flag resumes after a match finds no other position. *)
Fixpoint replaceLeadingCI (alternatives : list jsstring) (s : jsstring) : jsstring :=
  match alternatives with
  | [] => s
  | p :: ps =>
      match matchPrefixCI p s with
      | Some rest => rest
      | None => replaceLeadingCI ps s
      end
  end.

(** [s.replace(/\//g, " / ")] *)
Definition replaceAllSlash (s : jsstring) : jsstring :=
  flat_map (fun c => if N.eqb c 47 then lit " / " else [c]) s.

(** [s.replace(/\.html$/, "")] *)
Definition replaceHtmlSuffix (s : jsstring) : jsstring :=
  if endsWith s (lit ".html") then firstn (length s - 5) s else s.

(** [s.lastIndexOf("/")], [None] for -1. *)
Fixpoint lastIndexOf (c : N) (s : jsstring) : option nat :=
  match s with
  | [] => None
  | d :: s' =>
      match lastIndexOf c s' with
      | Some i => Some (S i)
      | None => if N.eqb d c then Some 0 else None
      end
  end.

(** [s.substring(0, s.lastIndexOf("/"))]: a negative end counts as 0. *)
Definition beforeLastSlash (s : jsstring) : jsstring :=
  match lastIndexOf 47 s with
  | Some i => firstn i s
  | None => []
  end.

End Str.

(** ** Values of the authored configuration

    A value of the block configuration, and the tags, is a string or an
    array of strings ([Array.isArray] is tested on them). *)

Inductive value :=
| VStr (s : jsstring)
| VArr (l : list jsstring).

(** Truthiness: the empty string is falsy, every array is truthy. *)
Definition truthy (v : value) : bool :=
  match v with
  | VStr s => negb (Str.isEmpty s)
  | VArr _ => true
  end.

(** [a || b] where [a] may be undefined. *)
Definition orElse (a : option value) (b : value) : value :=
  match a with
  | Some v => if truthy v then v else b
  | None => b
  end.

Definition strOr (a : option jsstring) (b : jsstring) : jsstring :=
  match a with
  | Some s => if Str.isEmpty s then b else s
  | None => b
  end.

Definition config := list (jsstring * value).

Fixpoint get (cfg : config) (key : jsstring) : option value :=
  match cfg with
  | [] => None
  | (k, v) :: cfg' => if Str.eqb k key then Some v else get cfg' key
  end.

(** ** The document *)

(** The click listener [buildCard] registers; it closes over [isAuthor]
    and [productId]. *)
Inductive handler :=
| NavigateToProduct (isAuthor : bool) (productId : jsstring).

#[warnings="-register-all"]
Inductive node :=
| Text (data : jsstring)
| Element (tagName className : jsstring)
          (attributes : list (jsstring * jsstring))
          (cursor : jsstring)
          (listeners : list handler)
          (childNodes : list node).

(** [document.createElement(tag)] followed by [className = cls] and
    [append(...kids)]. *)
Definition element (tag cls : string) (kids : list node) : node :=
  Element (lit tag) (lit cls) [] [] [] kids.

(** The children [el.textContent = s] leaves. *)
Definition textChild (s : jsstring) : list node :=
  if Str.isEmpty s then [] else [Text s].

Fixpoint textContent (n : node) : jsstring :=
  match n with
  | Text d => d
  | Element _ _ _ _ _ kids =>
      (fix all (l : list node) : jsstring :=
         match l with
         | [] => []
         | k :: l' => textContent k ++ all l'
         end) kids
  end.

Fixpoint hasAttribute (attrs : list (jsstring * jsstring)) (key : jsstring) : bool :=
  match attrs with
  | [] => false
  | (k, _) :: attrs' => Str.eqb k key || hasAttribute attrs' key
  end.

Fixpoint getAttribute (attrs : list (jsstring * jsstring)) (key : jsstring)
  : option jsstring :=
  match attrs with
  | [] => None
  | (k, v) :: attrs' => if Str.eqb k key then Some v else getAttribute attrs' key
  end.

(** The first [a[href]] element of a subtree, in document order. *)
Fixpoint firstAnchor (n : node) : option node :=
  match n with
  | Text _ => None
  | Element tag _ attrs _ _ kids =>
      if Str.eqb tag (lit "a") && hasAttribute attrs (lit "href") then Some n
      else
        (fix first (l : list node) : option node :=
           match l with
           | [] => None
           | k :: l' =>
               match firstAnchor k with
               | Some a => Some a
               | None => first l'
               end
           end) kids
  end.

(** The block element: its [data-cq-tags] attribute and its content. *)
Record block := {
  cqTags : option jsstring;
  content : list node
}.

(** [block.querySelector("a[href]")] *)
Fixpoint querySelectorAnchor (l : list node) : option node :=
  match l with
  | [] => None
  | k :: l' =>
      match firstAnchor k with
      | Some a => Some a
      | None => querySelectorAnchor l'
      end
  end.

(** The [href] property of an anchor: the link as the browser resolved it,
    held under the key [href]. *)
Definition href (a : node) : option jsstring :=
  match a with
  | Text _ => None
  | Element _ _ attrs _ _ _ => getAttribute attrs (lit "href")
  end.

(** [block.innerHTML = ""] *)
Definition clear (b : block) : block :=
  {| cqTags := cqTags b; content := [] |}.

(** [container.append(n)] *)
Definition append (b : block) (n : node) : block :=
  {| cqTags := cqTags b; content := content b ++ [n] |}.

(** [grid.append(...kids)], for the grid that was appended last to the
    block: the element is shared, the block sees the new children. *)
Definition appendChildren (n : node) (kids : list node) : node :=
  match n with
  | Text d => Text d
  | Element tag cls attrs cur ls old => Element tag cls attrs cur ls (old ++ kids)
  end.

Fixpoint appendToLast (l : list node) (kids : list node) : list node :=
  match l with
  | [] => []
  | [g] => [appendChildren g kids]
  | n :: l' => n :: appendToLast l' kids
  end.

Definition gridAppend (b : block) (kids : list node) : block :=
  {| cqTags := cqTags b; content := appendToLast (content b) kids |}.

(** ** The response of the query endpoint *)

Module Image.
Record t := { _authorUrl : option jsstring; _publishUrl : option jsstring }.
End Image.

(** A product record; an absent or [null] field is [None]. *)
Module Item.
Record t := {
  id : option jsstring;
  sku : option jsstring;
  name : option jsstring;
  image : option Image.t;
  category : option (list jsstring)
}.
End Item.

Record productsModelList_t := { items : option (list (option Item.t)) }.
Record data_t := { productsModelList : option productsModelList_t }.
Record json_t := { data : option data_t }.

(** What [resp.json()] settles to: a rejection when the body is not JSON,
    else the parsed value ([None] for [null]). *)
Inductive body :=
| NotJson
| Json (j : option json_t).

Record request := {
  url : jsstring;
  method : jsstring;
  headers : list (jsstring * jsstring)
}.

Record breakpoint := { media : option jsstring; width : jsstring }.

(** ** The collaborators of the block

    [isAuthorEnvironment], [readBlockConfig] and [createOptimizedPicture]
    are imported from the project's scripts; the URL parser, [fetch] and
    the Unicode uppercase table belong to the browser. *)
Record platform := {
  isAuthorEnvironment : bool;
  readBlockConfig : block -> config;
  (** [new URL(s).pathname], [None] when the constructor throws *)
  pathname : jsstring -> option jsstring;
  (** [fetch(url, init)], [None] when the promise rejects *)
  fetch : request -> option body;
  createOptimizedPicture : jsstring -> jsstring -> bool -> list breakpoint -> node;
  (** uppercase mapping of a code point outside ASCII *)
  unicodeUpper : N -> list N
}.

(** ** Effects: what a run does besides returning *)

Inductive strategy := Legacy | CategoryFiltered.

(** The events of a run: [decorate] calling a strategy, a request handed
    to [fetch], a message and an exception handed to [console.error]. *)
Inductive event :=
| Invoke (s : strategy)
| Fetch (r : request)
| ConsoleError (msg : jsstring) (e : js_error).

(** A computation logs events and completes with a value or an exception. *)
Definition M (A : Type) : Type := (list event * completion A)%type.

Definition ret {A} (a : A) : M A := ([], Returns a).
Definition throw {A} (e : js_error) : M A := ([], Throws e).
Definition emit (ev : event) : M unit := ([ev], Returns tt).

Definition bind {A B} (m : M A) (k : A -> M B) : M B :=
  match m with
  | (t, Returns a) => let (t', r) := k a in (t ++ t', r)
  | (t, Throws e) => (t, Throws e)
  end.

(** [try { m } catch (e) { h e }] *)
Definition tryCatch {A} (m : M A) (h : js_error -> M A) : M A :=
  match m with
  | (t, Returns a) => (t, Returns a)
  | (t, Throws e) => let (t', r) := h e in (t ++ t', r)
  end.

Definition lift {A} (c : completion A) : M A := ([], c).

Notation "x <- m ;; k" := (bind m (fun x => k))
  (at level 61, m at next level, right associativity).
Notation "m ;;; k" := (bind m (fun _ => k))
  (at level 61, right associativity).

Definition trace {A} (m : M A) : list event := fst m.
Definition result {A} (m : M A) : completion A := snd m.

(** ** buildCard *)

(** [const productId = sku || id || ""] *)
Definition productId (item : Item.t) : jsstring :=
  strOr (Item.sku item) (strOr (Item.id item) []).

(** [isAuthor ? image?._authorUrl : image?._publishUrl] *)
Definition imgUrl (item : Item.t) (isAuthor : bool) : option jsstring :=
  match Item.image item with
  | Some image => if isAuthor then Image._authorUrl image else Image._publishUrl image
  | None => None
  end.

(** [category && category.length ? category.join(", ") : ""] *)
Definition categoryText (item : Item.t) : jsstring :=
  match Item.category item with
  | Some category =>
      if Nat.eqb (length category) 0 then [] else Str.join (lit ", ") category
  | None => []
  end.

(** The text of the category line. *)
Definition categoryLabel (E : platform) (item : Item.t) : jsstring :=
  Str.toUpperCase (unicodeUpper E)
    (Str.replaceAllSlash
       (Str.replaceLeadingCI [lit "luma:"; lit "lumaproducts:"] (categoryText item))).

Definition breakpoints : list breakpoint :=
  [ {| media := Some (lit "(min-width: 900px)"); width := lit "600" |};
    {| media := Some (lit "(min-width: 600px)"); width := lit "400" |};
    {| media := None; width := lit "320" |} ].

(** Lines 31-49: the picture of the card, if the record has an image URL
    for the environment. *)
Definition picture (E : platform) (item : Item.t) (isAuthor : bool) : option node :=
  let alt := strOr (Item.name item) (lit "Product image") in
  match imgUrl item isAuthor with
  | Some imgUrl =>
      if Str.isEmpty imgUrl then None
      else if negb isAuthor && Str.startsWith imgUrl (lit "http") then
        Some (element "picture" ""
                [Element (lit "img") []
                   [(lit "src", imgUrl); (lit "alt", alt); (lit "loading", lit "lazy")]
                   [] [] []])
      else Some (createOptimizedPicture E imgUrl alt false breakpoints)
  | None => None
  end.

Definition emptyItem : Item.t :=
  {| Item.id := None; Item.sku := None; Item.name := None;
     Item.image := None; Item.category := None |}.

(** [buildCard(item, isAuthor)]; a [null] record is [None]. *)
Definition buildCard (E : platform) (item : option Item.t) (isAuthor : bool) : node :=
  let item := match item with Some i => i | None => emptyItem end in
  let productId := productId item in
  let clickable := negb (Str.isEmpty productId) in
  let imgWrap :=
    element "div" "cpl-card-media"
      match picture E item isAuthor with Some p => [p] | None => [] end in
  let cat := element "p" "cpl-card-category" (textChild (categoryLabel E item)) in
  let title := element "h3" "cpl-card-title" (textChild (strOr (Item.name item) [])) in
  let meta := element "div" "cpl-card-meta" [cat; title] in
  Element (lit "article") (lit "cpl-card") []
    (if clickable then lit "pointer" else [])
    (if clickable then [NavigateToProduct isAuthor productId] else [])
    [imgWrap; meta].

(** What a click on a card does: the new [window.location.href], from the
    current [window.location.pathname]. *)
Definition click (h : handler) (currentPath : jsstring) : completion jsstring :=
  match h with
  | NavigateToProduct isAuthor productId =>
      let basePath := Str.beforeLastSlash currentPath in
      let productPath :=
        if isAuthor then basePath ++ lit "/product.html" else basePath ++ lit "/product" in
      Str.prepend (productPath ++ lit "?productId=") (Str.encodeURIComponent productId)
  end.

(** ** The fetch strategies *)

Definition noCache : list (jsstring * jsstring) :=
  [ (lit "Cache-Control", lit "no-cache, no-store, must-revalidate");
    (lit "Pragma", lit "no-cache") ].

Definition getRequest (u : jsstring) : request :=
  {| url := u; method := lit "GET"; headers := noCache |}.

(** [await fetch(url, { method: 'GET', headers })] *)
Definition httpGet (E : platform) (u : jsstring) : M body :=
  let r := getRequest u in
  emit (Fetch r) ;;;
  match fetch E r with
  | Some b => ret b
  | None => throw TypeError
  end.

(** [await resp.json()] *)
Definition json (resp : body) : M (option json_t) :=
  match resp with
  | NotJson => throw SyntaxError
  | Json j => ret j
  end.

(** [json?.data?.productsModelList?.items || []] *)
Definition itemsOf (j : option json_t) : list (option Item.t) :=
  match j with
  | Some j =>
      match data j with
      | Some d =>
          match productsModelList d with
          | Some p => match items p with Some l => l | None => [] end
          | None => []
          end
      | None => []
      end
  | None => []
  end.

(** The messages of the two [console.error] calls. *)
Definition legacyError : jsstring :=
  lit "Category Products Lister (Legacy): fetch error".

Definition categoryError : jsstring :=
  lit "Category Products Lister (Category Filtered): fetch error".

Definition legacyBaseUrl (E : platform) : jsstring :=
  if isAuthorEnvironment E
  then lit "https://author-p165802-e1765367.adobeaemcloud.com/graphql/execute.json/luma3/menproductspagelister;"
  else lit "https://275323-918sangriatortoise.adobeioruntime.net/api/v1/web/dx-excshell-1/lumaProductsGraphQl?".

(** [fetchLegacyProducts(path)] *)
Definition fetchLegacyProducts (E : platform) (path : jsstring)
  : M (list (option Item.t)) :=
  tryCatch
    (if Str.isEmpty path then ret []
     else
       let baseUrl := legacyBaseUrl E in
       let url := baseUrl ++ lit "_path=" ++ path in
       resp <- httpGet E url ;;
       json <- json resp ;;
       let items := itemsOf json in
       ret items)
    (fun e => emit (ConsoleError legacyError e) ;;; ret []).

Definition categoryBaseUrl (E : platform) : jsstring :=
  if isAuthorEnvironment E
  then lit "https://author-p165802-e1765367.adobeaemcloud.com/graphql/execute.json/luma3/categoryFilteredProductsLister;"
  else lit "https://275323-918sangriatortoise.adobeioruntime.net/api/v1/web/dx-excshell-1/categoryFilteredProductsLister?".

(** [Array.isArray(categoryFilter) ? categoryFilter.join(',') : categoryFilter] *)
Definition categoryParam (categoryFilter : value) : jsstring :=
  match categoryFilter with
  | VArr l => Str.join (lit ",") l
  | VStr s => s
  end.

(** The request URL of the category-filtered strategy; [categoryFilter] is
    [None] for [null]. *)
Definition categoryUrl (E : platform) (path : jsstring) (categoryFilter : option value)
  : completion jsstring :=
  let baseUrl := categoryBaseUrl E in
  let url := baseUrl ++ lit "_path=" ++ path in
  match categoryFilter with
  | Some v =>
      if truthy v
      then Str.prepend (url ++ lit "&category=") (Str.encodeURIComponent (categoryParam v))
      else Returns url
  | None => Returns url
  end.

(** [fetchCategoryFilteredProducts(path, categoryFilter = null)] *)
Definition fetchCategoryFilteredProducts
  (E : platform) (path : jsstring) (categoryFilter : option value)
  : M (list (option Item.t)) :=
  tryCatch
    (if Str.isEmpty path then ret []
     else
       url <- lift (categoryUrl E path categoryFilter) ;;
       resp <- httpGet E url ;;
       json <- json resp ;;
       let items := itemsOf json in
       ret items)
    (fun e => emit (ConsoleError categoryError e) ;;; ret []).

(** ** renderHeader *)

Definition chip (tag : jsstring) : node :=
  element "span" "cpl-tag" (textChild tag).

(** [selectedTags.length] *)
Definition lengthOf (v : value) : nat :=
  match v with
  | VStr s => length s
  | VArr l => length l
  end.

Definition tagList (selectedTags : value) : list jsstring :=
  match selectedTags with
  | VArr l => l
  | VStr s => Str.split 44 s
  end.

(** [list.map((t) => `${t}`.trim()).filter(Boolean)] *)
Definition chipTexts (selectedTags : value) : list jsstring :=
  filter (fun t => negb (Str.isEmpty t)) (List.map Str.trim (tagList selectedTags)).

(** [renderHeader(container, selectedTags)]: the container it leaves. *)
Definition renderHeader (container : block) (selectedTags : value) : block :=
  if negb (truthy selectedTags) || Nat.eqb (lengthOf selectedTags) 0 then container
  else
    let wrap := element "div" "cpl-tags" (List.map chip (chipTexts selectedTags)) in
    append container wrap.

(** ** decorate *)

(** Lines 175-184: the folder reference as authored. *)
Definition authoredFolder (b : block) (cfg : config) : value :=
  let fromAnchor :=
    match querySelectorAnchor (content b) with
    | Some a => strOr (href a) (Str.trim (textContent a))
    | None => []
    end in
  if Str.isEmpty fromAnchor
  then orElse (get cfg (lit "folder"))
         (orElse (get cfg (lit "reference"))
            (orElse (get cfg (lit "path")) (VStr [])))
  else VStr fromAnchor.

(** Lines 187-194: an absolute URL is replaced by its pathname; whatever
    the block throws is ignored (an array has no [startsWith]). *)
Definition normalizeFolder (E : platform) (folderHref : value) : value :=
  match folderHref with
  | VStr s =>
      if negb (Str.isEmpty s) && Str.startsWith s (lit "http") then
        match pathname E s with
        | Some p => VStr p
        | None => VStr s
        end
      else VStr s
  | VArr l => VArr l
  end.

(** Lines 197-199: the [.html] extension is removed; an array has no
    [endsWith], the call throws. *)
Definition removeHtml (folderHref : value) : completion jsstring :=
  match folderHref with
  | VStr s =>
      if negb (Str.isEmpty s) && Str.endsWith s (lit ".html")
      then Returns (Str.replaceHtmlSuffix s)
      else Returns s
  | VArr _ => Throws TypeError
  end.

(** Line 202: [block.dataset?.["cqTags"] || cfg?.tags || cfg?.["cq:tags"] || ""] *)
Definition authoredTags (b : block) (cfg : config) : value :=
  orElse (option_map VStr (cqTags b))
    (orElse (get cfg (lit "tags"))
       (orElse (get cfg (lit "cq:tags")) (VStr []))).

Definition emptyMessage : node :=
  element "p" "cpl-empty" (textChild (lit "No products found.")).

(** [decorate(block)]: the block it leaves.  The event [Invoke] records
    which strategy is called. *)
Definition decorate (E : platform) (b : block) : M block :=
  let isAuthor := isAuthorEnvironment E in
  let cfg := readBlockConfig E b in
  let folderHref := normalizeFolder E (authoredFolder b cfg) in
  folderHref <- lift (removeHtml folderHref) ;;
  let tags := authoredTags b cfg in
  let b := clear b in
  let b := renderHeader b tags in
  let grid := element "div" "cpl-grid" [] in
  let b := append b grid in
  let isLegacyLuma3 :=
    negb (Str.isEmpty folderHref) && Str.includes folderHref (lit "/dam/luma3/") in
  items <- (if isLegacyLuma3
            then emit (Invoke Legacy) ;;; fetchLegacyProducts E folderHref
            else emit (Invoke CategoryFiltered) ;;;
                 fetchCategoryFilteredProducts E folderHref (Some tags)) ;;
  if Nat.eqb (length items) 0 then ret (gridAppend b [emptyMessage])
  else
    let cards := List.map (fun item => buildCard E item isAuthor) items in
    ret (gridAppend b cards).

(** ** The resolved configuration and the rendering that follows it

    [decorate] first resolves the folder path and the tags from the block
    (lines 172-202) and then renders (lines 204-234); the two halves are
    named here to state properties of each. *)

Definition resolveFolder (E : platform) (b : block) : completion jsstring :=
  removeHtml (normalizeFolder E (authoredFolder b (readBlockConfig E b))).

Definition resolveTags (E : platform) (b : block) : value :=
  authoredTags b (readBlockConfig E b).

(** [isLegacyLuma3] *)
Definition isLegacyLuma3 (folderHref : jsstring) : bool :=
  negb (Str.isEmpty folderHref) && Str.includes folderHref (lit "/dam/luma3/").

(** The strategy [decorate] calls for a folder path. *)
Definition fetchProducts (E : platform) (folderHref : jsstring) (tags : value)
  : M (list (option Item.t)) :=
  if isLegacyLuma3 folderHref
  then emit (Invoke Legacy) ;;; fetchLegacyProducts E folderHref
  else emit (Invoke CategoryFiltered) ;;;
       fetchCategoryFilteredProducts E folderHref (Some tags).

(** What the grid receives for the fetched records. *)
Definition gridChildren (E : platform) (items : list (option Item.t)) : list node :=
  if Nat.eqb (length items) 0 then [emptyMessage]
  else List.map (fun item => buildCard E item (isAuthorEnvironment E)) items.

(** What [renderHeader] appends to a container: nothing, or the wrapper
    of the chips. *)
Definition header (tags : value) : list node :=
  content (renderHeader {| cqTags := None; content := [] |} tags).

(** The content of the block once rendered with the given tags and grid
    children: the optional header, then the grid. *)
Definition rendered (tags : value) (kids : list node) : list node :=
  header tags ++ [element "div" "cpl-grid" kids].

(** ** Definitions used by the statements *)

(** What a strategy does once its request is built: the request, then
    the records of the response, or the log of the failure and no record. *)
Definition settle (E : platform) (msg : jsstring) (u : jsstring)
  : M (list (option Item.t)) :=
  match fetch E (getRequest u) with
  | None => ([Fetch (getRequest u); ConsoleError msg TypeError], Returns [])
  | Some NotJson => ([Fetch (getRequest u); ConsoleError msg SyntaxError], Returns [])
  | Some (Json j) => ([Fetch (getRequest u)], Returns (itemsOf j))
  end.

(** The request fails: the promise of [fetch] rejects, or the body is not
    JSON and [resp.json()] rejects. *)
Definition fails (E : platform) (r : request) : Prop :=
  fetch E r = None \/ fetch E r = Some NotJson.

(** The value at [data.productsModelList.items], when every part of the
    path is there. *)
Definition itemsPath (j : option json_t) : option (list (option Item.t)) :=
  match j with
  | Some j =>
      match data j with
      | Some d =>
          match productsModelList d with
          | Some p => items p
          | None => None
          end
      | None => None
      end
  | None => None
  end.

(** The click listeners and the cursor of a card. *)
Definition listenersOf (n : node) : list handler :=
  match n with
  | Text _ => []
  | Element _ _ _ _ ls _ => ls
  end.

Definition cursorOf (n : node) : jsstring :=
  match n with
  | Text _ => []
  | Element _ _ _ cur _ _ => cur
  end.

(** Whether [s] begins with the pattern [p], case-insensitively. *)
Definition hasPrefixCI (p s : jsstring) : bool :=
  match Str.matchPrefixCI p s with
  | Some _ => true
  | None => false
  end.

(** The label in the words of the specification: join the categories with
    [", "], strip one leading [luma:] or [lumaproducts:] whatever its case,
    put [" / "] for every slash, uppercase. *)
Definition stripPrefix (text : jsstring) : jsstring :=
  match Str.matchPrefixCI (lit "luma:") text with
  | Some rest => rest
  | None =>
      match Str.matchPrefixCI (lit "lumaproducts:") text with
      | Some rest => rest
      | None => text
      end
  end.

Definition labelOf (upper : N -> list N) (category : list jsstring) : jsstring :=
  Str.toUpperCase upper
    (Str.join (lit " / ") (Str.split 47 (stripPrefix (Str.join (lit ", ") category)))).

Definition categoriesOf (item : Item.t) : list jsstring :=
  match Item.category item with
  | Some category => category
  | None => []
  end.

Definition isInvoke (ev : event) : bool :=
  match ev with
  | Invoke _ => true
  | _ => false
  end.

(** A character that needs no escape in a query string: an unreserved
    one, or the percent sign of an escape. *)
Definition urlSafe (c : N) : bool := Str.isUnreserved c || N.eqb c 37.

(** The reading of an encoded parameter, to state that the encoding loses
    nothing: percent escapes to octets, octets to code points (UTF-8),
    code points to code units. *)
Definition unhex (c : N) : option N :=
  (if Str.isDigit c then Some (c - 48)
   else if (65 <=? c) && (c <=? 70) then Some (c - 55)
   else if (97 <=? c) && (c <=? 102) then Some (c - 87)
   else None)%N.

Fixpoint octets (s : jsstring) : option (list N) :=
  match s with
  | [] => Some []
  | c :: s' =>
      if N.eqb c 37 then
        match s' with
        | h :: l :: s'' =>
            match unhex h, unhex l, octets s'' with
            | Some a, Some b, Some r => Some ((16 * a + b)%N :: r)
            | _, _, _ => None
            end
        | _ => None
        end
      else option_map (cons c) (octets s')
  end.

Fixpoint utf8Decode (l : list N) : option (list N) :=
  match l with
  | [] => Some []
  | b0 :: l1 =>
      if (b0 <? 128)%N then option_map (cons b0) (utf8Decode l1)
      else if (b0 <? 224)%N then
        match l1 with
        | b1 :: l2 =>
            option_map (cons ((b0 - 192) * 64 + (b1 - 128))%N) (utf8Decode l2)
        | _ => None
        end
      else if (b0 <? 240)%N then
        match l1 with
        | b1 :: b2 :: l3 =>
            option_map (cons ((b0 - 224) * 4096 + (b1 - 128) * 64 + (b2 - 128))%N)
              (utf8Decode l3)
        | _ => None
        end
      else
        match l1 with
        | b1 :: b2 :: b3 :: l4 =>
            option_map
              (cons ((b0 - 240) * 262144 + (b1 - 128) * 4096
                     + (b2 - 128) * 64 + (b3 - 128))%N)
              (utf8Decode l4)
        | _ => None
        end
  end.

Definition percentDecode (s : jsstring) : option jsstring :=
  match octets s with
  | Some o => option_map Str.fromCodePoints (utf8Decode o)
  | None => None
  end.

(** A string whose elements are code units, of 16 bits. *)
Definition wellFormed (s : jsstring) : Prop := Forall (fun c => (c < 65536)%N) s.

(** ** Observations of a run and of a rendered block *)

(** The children of an element, and the last child of a block: after a run
    the grid. *)
Definition childrenOf (n : node) : list node :=
  match n with
  | Text _ => []
  | Element _ _ _ _ _ kids => kids
  end.

Definition gridOf (b : block) : node := last (content b) (Text []).

(** The requests sent, the strategies invoked and the errors logged in a
    trace, each in order. *)
Fixpoint requestsOf (t : list event) : list request :=
  match t with
  | [] => []
  | Fetch r :: t' => r :: requestsOf t'
  | _ :: t' => requestsOf t'
  end.

Fixpoint strategiesOf (t : list event) : list strategy :=
  match t with
  | [] => []
  | Invoke s :: t' => s :: strategiesOf t'
  | _ :: t' => strategiesOf t'
  end.

Fixpoint errorsOf (t : list event) : list (jsstring * js_error) :=
  match t with
  | [] => []
  | ConsoleError msg e :: t' => (msg, e) :: errorsOf t'
  | _ :: t' => errorsOf t'
  end.
(* END DEFS *)

(** The message a strategy logs (lines 102 and 146) and its endpoint
    (lines 84-86 and 118-120). *)
Definition errorOf (s : strategy) : jsstring :=
  match s with
  | Legacy => legacyError
  | CategoryFiltered => categoryError
  end.

Definition baseUrlOf (E : platform) (s : strategy) : jsstring :=
  match s with
  | Legacy => legacyBaseUrl E
  | CategoryFiltered => categoryBaseUrl E
  end.

(** The strategy that line 214 selects for a resolved folder path. *)
Definition strategyOf (folderHref : jsstring) : strategy :=
  if isLegacyLuma3 folderHref then Legacy else CategoryFiltered.

(** A record with another image, and what the media box of a card holds. *)
Definition withImage (item : Item.t) (image : option Image.t) : Item.t :=
  {| Item.id := Item.id item; Item.sku := Item.sku item; Item.name := Item.name item;
     Item.image := image; Item.category := Item.category item |}.

Definition mediaOf (card : node) : list node :=
  match childrenOf card with
  | media :: _ => childrenOf media
  | [] => []
  end.

(** ** Sample collaborators, for the examples *)

(** A parser of plain [scheme://host/path] strings, standing for
    [new URL(s).pathname] in the examples. *)
Fixpoint afterScheme (s : jsstring) : option jsstring :=
  match s with
  | [] => None
  | c :: s' =>
      if Str.startsWith s (lit "://") then Some (skipn 3 s) else afterScheme s'
  end.

Fixpoint fromFirstSlash (s : jsstring) : jsstring :=
  match s with
  | [] => lit "/"
  | c :: s' => if N.eqb c 47 then s else fromFirstSlash s'
  end.

Definition samplePathname (s : jsstring) : option jsstring :=
  option_map fromFirstSlash (afterScheme s).

Definition samplePicture (src alt : jsstring) (eager : bool) (bps : list breakpoint)
  : node :=
  element "picture" ""
    [Element (lit "img") [] [(lit "src", src); (lit "alt", alt)] [] [] []].

(** A platform whose configuration reader finds the given configuration
    in every block and whose network answers as [net] says. *)
Definition samplePlatform (author : bool) (cfg : config) (net : request -> option body)
  : platform :=
  {| isAuthorEnvironment := author;
     readBlockConfig := fun _ => cfg;
     pathname := samplePathname;
     fetch := net;
     createOptimizedPicture := samplePicture;
     unicodeUpper := fun c => [c] |}.

Definition respond (l : list (option Item.t)) : request -> option body :=
  fun _ =>
    Some (Json (Some {| data := Some {| productsModelList :=
                          Some {| items := Some l |} |} |})).

Definition offline : request -> option body := fun _ => None.

(** An authored block holding one link, [<div><div><a href=...>text</a></div></div>]. *)
Definition linkBlock (tags : option jsstring) (link text : jsstring) : block :=
  {| cqTags := tags;
     content :=
       [element "div" ""
          [element "div" ""
             [Element (lit "a") [] [(lit "href", link)] [] [] (textChild text)]]] |}.

Definition emptyBlock (tags : option jsstring) : block :=
  {| cqTags := tags; content := [] |}.

Definition shoe : Item.t :=
  {| Item.id := None; Item.sku := Some (lit "M1"); Item.name := Some (lit "Shoe");
     Item.image := Some {| Image._authorUrl := None;
                           Image._publishUrl := Some (lit "http://x/img.png") |};
     Item.category := Some [lit "luma:men"] |}.

(** ** Sample inputs *)

Definition offlinePlatform : platform := samplePlatform false [] offline.

Definition anonymous : Item.t :=
  {| Item.id := None; Item.sku := None; Item.name := Some (lit "Shoe");
     Item.image := None; Item.category := None |}.

Definition twicePrefixed : Item.t :=
  {| Item.id := None; Item.sku := None; Item.name := None; Item.image := None;
     Item.category := Some [lit "luma:luma:men"] |}.

Definition menShoes : Item.t :=
  {| Item.id := None; Item.sku := None; Item.name := None; Item.image := None;
     Item.category := Some [lit "Luma:men/shoes"; lit "luma:sale"] |}.

Definition blankTags : jsstring := lit " , ".

(** Scenario A: the published site, folder [/dam/luma3/men-products], one
    product. *)
Definition menPlatform : platform :=
  samplePlatform false [(lit "folder", VStr (lit "/dam/luma3/men-products"))]
    (respond [Some shoe]).

Definition shoeCard : node :=
  Element (lit "article") (lit "cpl-card") [] (lit "pointer")
    [NavigateToProduct false (lit "M1")]
    [ element "div" "cpl-card-media"
        [element "picture" ""
           [Element (lit "img") []
              [ (lit "src", lit "http://x/img.png"); (lit "alt", lit "Shoe");
                (lit "loading", lit "lazy") ] [] [] []]];
      element "div" "cpl-card-meta"
        [ element "p" "cpl-card-category" [Text (lit "MEN")];
          element "h3" "cpl-card-title" [Text (lit "Shoe")] ] ].

(** Scenario B: folder [/content/cat/shirts], tags ["red, blue"], no
    product. *)
Definition shirtsConfig : config :=
  [ (lit "folder", VStr (lit "/content/cat/shirts"));
    (lit "tags", VStr (lit "red, blue")) ].

Definition shirtsPlatform : platform := samplePlatform false shirtsConfig (respond []).

Definition shirtsUrl : jsstring :=
  lit "https://275323-918sangriatortoise.adobeioruntime.net/api/v1/web/dx-excshell-1/categoryFilteredProductsLister?_path=/content/cat/shirts&category=red%2C%20blue".

(** Blocks authored with a link, and platforms that read no configuration
    rows in them. *)
Definition ftpReference : jsstring := lit "ftp://example.com/dam/a.html".

Definition menReference : jsstring :=
  lit "https://publish.example.com/content/dam/luma3/men-products.html".

Definition menBlock : block := linkBlock None menReference (lit "Men").

Definition shirtsLink : block :=
  linkBlock None (lit "/content/cat/shirts") (lit "Shirts").

Definition taggedShirts : block :=
  linkBlock (Some (lit "red, blue")) (lit "/content/cat/shirts") (lit "Shirts").

Definition shoeBlock : block :=
  linkBlock None (lit "https://publish.example.com/content/cat/shoes") (lit "Shoes").

Definition shoePlatform : platform := samplePlatform false [] (respond [Some shoe]).

Definition emptyShop : platform := samplePlatform false [] (respond []).

Definition legacyPlatform : platform :=
  samplePlatform false [(lit "tags", VStr (lit "red, blue"))] (respond [Some shoe]).

Definition taggedPlatform : platform :=
  samplePlatform false [(lit "tags", VStr (lit "red"))] (respond [Some shoe]).

(** Responses that lack a part of the path, or hold a [null] record. *)
Definition noDataPlatform : platform :=
  samplePlatform true [] (fun _ => Some (Json (Some {| data := None |}))).

Definition nullItemPlatform : platform := samplePlatform true [] (respond [None]).

(** The block that [shoePlatform] renders from [shoeBlock], a platform
    whose configured folder is an array, and a tag array with a blank entry. *)
Definition shoeRendered : block :=
  {| cqTags := None;
     content := [element "div" "cpl-grid" [buildCard shoePlatform (Some shoe) false]] |}.

Definition arrayPlatform : platform :=
  samplePlatform false [(lit "folder", VArr [lit "/content/cat/shirts"])] (respond []).

Definition sizes : value := VArr [lit " small "; lit "  "; lit "large"].

(** A network on which the endpoint of the legacy strategy answers and
    every other request is rejected. *)
Definition legacyOnly : request -> option body :=
  fun r =>
    if Str.includes (url r) (lit "lumaProductsGraphQl") then respond [Some shoe] r
    else None.

Definition legacyOnlyPlatform : platform := samplePlatform false [] legacyOnly.

(** Tags authored with blanks around them. *)
Definition paddedPlatform : platform :=
  samplePlatform false
    [ (lit "folder", VStr (lit "/content/cat/shirts")); (lit "tags", VStr (lit " red ")) ]
    (respond []).

(** LATIN SMALL LETTER KRA, U+0138: a lowercase letter that has no
    uppercase form, so that [toUpperCase] leaves it as it is; the sample
    table of uppercase forms agrees.  With it, the small letters the
    statements name: those of ASCII, and kra. *)
Definition kra : N := 312.

Definition isSmallLetter (c : N) : bool := Str.isAsciiLower c || N.eqb c kra.

Definition smallKra : Item.t :=
  {| Item.id := None; Item.sku := None; Item.name := None; Item.image := None;
     Item.category := Some [[kra]] |}.

(** A reader that finds the configuration in the rows of the block
    itself: a child of the block with two children or more is a row, the
    text of its first child is the key and the text of its second child
    the value. *)
Definition rowsConfig (b : block) : config :=
  flat_map (fun row =>
              match childrenOf row with
              | key :: val :: _ => [(textContent key, VStr (textContent val))]
              | _ => []
              end)
    (content b).

Definition rowsPlatform (net : request -> option body) : platform :=
  {| isAuthorEnvironment := false;
     readBlockConfig := rowsConfig;
     pathname := samplePathname;
     fetch := net;
     createOptimizedPicture := samplePicture;
     unicodeUpper := fun c => [c] |}.

Definition shoeShop : platform := rowsPlatform (respond [Some shoe]).

(** A block with a tag and no folder, and what [shoeShop] renders from it. *)
Definition redBlock : block := emptyBlock (Some (lit "red")).

Definition redRendered : block :=
  {| cqTags := Some (lit "red");
     content := [element "div" "cpl-tags" [chip (lit "red")];
                 element "div" "cpl-grid" [emptyMessage]] |}.

(** A block whose link names the folder and whose tags are the word
    [folder] and that same path: the header rendered from the tags is a
    row of two chips, which the reader takes for the folder. *)
Definition folderTags : jsstring := lit "folder,/content/cat/shoes".

Definition shoesBlock : block :=
  linkBlock (Some folderTags) (lit "https://publish.example.com/content/cat/shoes")
    (lit "Shoes").

Definition shoesRendered : block :=
  {| cqTags := Some folderTags;
     content := [element "div" "cpl-tags"
                   [chip (lit "folder"); chip (lit "/content/cat/shoes")];
                 element "div" "cpl-grid" [buildCard shoeShop (Some shoe) false]] |}.

(** * Properties *)

(** ** Examples *)

Example scenario_A :
  decorate menPlatform (emptyBlock None)
  = ([Invoke Legacy;
      Fetch (getRequest (lit "https://275323-918sangriatortoise.adobeioruntime.net/api/v1/web/dx-excshell-1/lumaProductsGraphQl?_path=/dam/luma3/men-products"))],
     Returns {| cqTags := None;
                content := [element "div" "cpl-grid" [shoeCard]] |})
  /\ click (NavigateToProduct false (lit "M1")) (lit "/us/en/men-products")
     = Returns (lit "/us/en/product?productId=M1").
Proof. split; reflexivity. Qed.

Example scenario_C :
  decorate offlinePlatform (linkBlock None (lit "/content/cat/shirts") (lit "Shirts"))
  = ([Invoke CategoryFiltered;
      Fetch (getRequest (lit "https://275323-918sangriatortoise.adobeioruntime.net/api/v1/web/dx-excshell-1/categoryFilteredProductsLister?_path=/content/cat/shirts"));
      ConsoleError categoryError TypeError],
     Returns {| cqTags := None;
                content := [element "div" "cpl-grid" [emptyMessage]] |}).
Proof. reflexivity. Qed.

Example array_folder_throws :
  decorate (samplePlatform false [(lit "folder", VArr [lit "/a"; lit "/b"])] offline)
    (emptyBlock None)
  = ([], Throws TypeError).
Proof. reflexivity. Qed.

Example encode_red_blue :
  Str.encodeURIComponent (lit "red, blue") = Returns (lit "red%2C%20blue").
Proof. reflexivity. Qed.

Example encode_euro :
  Str.encodeURIComponent [8364; 233; 55357; 56832]%N
  = Returns (lit "%E2%82%AC%C3%A9%F0%9F%98%80").
Proof. reflexivity. Qed.

Example split_red_blue :
  List.map Str.trim (Str.split 44 (lit "red, blue")) = [lit "red"; lit "blue"].
Proof. reflexivity. Qed.

(** ** Strings *)

Module StrFacts.

Lemma eqb_refl (s : jsstring) : Str.eqb s s = true.
Proof.
  induction s as [|c s IH]; simpl; [reflexivity|].
  now rewrite N.eqb_refl, IH.
Qed.

Lemma eqb_eq (s t : jsstring) : Str.eqb s t = true <-> s = t.
Proof.
  split; [|intros ->; apply eqb_refl].
  revert t; induction s as [|c s IH]; intros [|d t]; simpl; try discriminate; auto.
  intros H; apply andb_true_iff in H as [Hc Hs].
  apply N.eqb_eq in Hc; subst; f_equal; auto.
Qed.

Lemma startsWith_app (p r : jsstring) : Str.startsWith (p ++ r) p = true.
Proof.
  induction p as [|d p IH]; simpl; [reflexivity|].
  now rewrite N.eqb_refl, IH.
Qed.

Lemma startsWith_inv (s p : jsstring) :
  Str.startsWith s p = true -> exists r, s = p ++ r.
Proof.
  revert s; induction p as [|d p IH]; intros s H; simpl in *.
  - now exists s.
  - destruct s as [|c s]; [discriminate|].
    apply andb_true_iff in H as [Hc Hs]; apply N.eqb_eq in Hc; subst.
    destruct (IH _ Hs) as [r ->]; now exists r.
Qed.

Lemma endsWith_app (r p : jsstring) : Str.endsWith (r ++ p) p = true.
Proof.
  unfold Str.endsWith; rewrite length_app.
  replace (length r + length p - length p) with (length r) by lia.
  rewrite skipn_app, skipn_all, Nat.sub_diag; simpl.
  rewrite eqb_refl, andb_true_r.
  apply Nat.leb_le; lia.
Qed.

Lemma endsWith_inv (s p : jsstring) :
  Str.endsWith s p = true -> exists r, s = r ++ p.
Proof.
  unfold Str.endsWith; intros H; apply andb_true_iff in H as [_ H].
  apply eqb_eq in H.
  remember (length s - length p) as n eqn:Hn; clear Hn.
  exists (firstn n s).
  rewrite <- H; symmetry; apply firstn_skipn.
Qed.

(** Removing the suffix removes exactly the five code units of [.html]. *)
Lemma replaceHtmlSuffix_app (r : jsstring) :
  Str.replaceHtmlSuffix (r ++ lit ".html") = r.
Proof.
  unfold Str.replaceHtmlSuffix; rewrite endsWith_app, length_app.
  change (length (lit ".html")) with 5.
  replace (length r + 5 - 5) with (length r) by lia.
  rewrite firstn_app, firstn_all, Nat.sub_diag; simpl.
  apply app_nil_r.
Qed.

Lemma includes_nil (p : jsstring) : Str.includes [] p = true -> p = [].
Proof. destruct p; simpl; [reflexivity | discriminate]. Qed.

Lemma includes_inv (s p : jsstring) :
  Str.includes s p = true -> exists l r, s = l ++ p ++ r.
Proof.
  induction s as [|c s IH]; intros H.
  - apply includes_nil in H; subst; now exists [], [].
  - simpl in H; apply orb_true_iff in H as [H|H].
    + apply (startsWith_inv (c :: s)) in H as [r ->]; now exists [], r.
    + destruct (IH H) as (l & r & ->); now exists (c :: l), r.
Qed.

Lemma includes_startsWith (s p : jsstring) :
  Str.startsWith s p = true -> Str.includes s p = true.
Proof. intros H; destruct s; simpl; now rewrite H. Qed.

Lemma includes_app (l p r : jsstring) : Str.includes (l ++ p ++ r) p = true.
Proof.
  induction l as [|c l IH].
  - apply includes_startsWith; exact (startsWith_app p r).
  - simpl; simpl in IH; rewrite IH; apply orb_true_r.
Qed.

(** *** split and join *)

Lemma split_not_nil (sep : N) (s : jsstring) : Str.split sep s <> [].
Proof.
  destruct s as [|c s]; simpl; [discriminate|].
  destruct (N.eqb c sep); [discriminate|].
  destruct (Str.split sep s); discriminate.
Qed.

Lemma split_free (sep : N) (s : jsstring) :
  ~ In sep s -> Str.split sep s = [s].
Proof.
  induction s as [|c s IH]; intros H; simpl; [reflexivity|].
  destruct (N.eqb_spec c sep) as [->|_]; [exfalso; apply H; now left|].
  rewrite IH; [reflexivity | intros Hin; apply H; now right].
Qed.

Lemma split_app_sep (sep : N) (s r : jsstring) :
  ~ In sep s -> Str.split sep (s ++ sep :: r) = s :: Str.split sep r.
Proof.
  induction s as [|c s IH]; intros H; simpl.
  - now rewrite N.eqb_refl.
  - destruct (N.eqb_spec c sep) as [->|_]; [exfalso; apply H; now left|].
    rewrite IH; [reflexivity | intros Hin; apply H; now right].
Qed.

(** Joining tags with the separator and splitting again gives the tags
    back, when there is a tag and no tag contains the separator. *)
Lemma split_join (sep : N) (l : list jsstring) :
  l <> [] -> (forall t, In t l -> ~ In sep t) ->
  Str.split sep (Str.join [sep] l) = l.
Proof.
  induction l as [|x l IH]; intros Hne Hfree; [congruence|].
  destruct l as [|y l].
  - simpl; apply split_free; apply Hfree; now left.
  - change (Str.join [sep] (x :: y :: l)) with (x ++ sep :: Str.join [sep] (y :: l)).
    rewrite split_app_sep by (apply Hfree; now left).
    f_equal; apply IH; [discriminate|].
    intros t Ht; apply Hfree; now right.
Qed.

Lemma join_cons (sep x : jsstring) (l : list jsstring) :
  l <> [] -> Str.join sep (x :: l) = x ++ sep ++ Str.join sep l.
Proof. destruct l; [congruence | reflexivity]. Qed.

(** Replacing every slash is splitting on the slash and joining the
    pieces with [" / "]. *)
Lemma replaceAllSlash_split (s : jsstring) :
  Str.replaceAllSlash s = Str.join (lit " / ") (Str.split 47 s).
Proof.
  induction s as [|c s IH]; [reflexivity|].
  unfold Str.replaceAllSlash in *; simpl flat_map; simpl Str.split.
  rewrite IH; destruct (N.eqb c 47).
  - rewrite join_cons by apply split_not_nil; reflexivity.
  - pose proof (split_not_nil 47 s) as Hne.
    destruct (Str.split 47 s) as [|w ws]; [congruence|].
    destruct ws; reflexivity.
Qed.

(** *** toUpperCase *)

Lemma Forall_flat_map {A B} (P : B -> Prop) (f : A -> list B) (l : list A) :
  (forall x, Forall P (f x)) -> Forall P (flat_map f l).
Proof.
  intros H; induction l as [|x l IH]; simpl; [constructor|].
  apply Forall_app; auto.
Qed.

Lemma asciiUpper_not_lower (c : N) : Str.isAsciiLower (Str.asciiUpper c) = false.
Proof.
  unfold Str.asciiUpper; destruct (Str.isAsciiLower c) eqn:E; [|exact E].
  unfold Str.isAsciiLower in *.
  apply andb_true_iff in E as [H1 H2].
  apply N.leb_le in H1, H2.
  apply andb_false_iff; left; apply N.leb_gt; lia.
Qed.

Lemma utf16Encode_not_lower (cp : N) :
  Str.isAsciiLower cp = false ->
  Forall (fun c => Str.isAsciiLower c = false) (Str.utf16Encode cp).
Proof.
  intros H; unfold Str.utf16Encode; destruct (N.leb_spec cp 65535).
  - now constructor.
  - assert (Hhigh : forall c, (55296 <= c)%N -> Str.isAsciiLower c = false).
    { intros c Hc; unfold Str.isAsciiLower.
      apply andb_false_iff; right; apply N.leb_gt; lia. }
    constructor; [apply Hhigh, N.le_add_l|].
    constructor; [|constructor].
    apply Hhigh; etransitivity; [|apply N.le_add_l]; now apply N.leb_le.
Qed.

Section Upper.
Variable upper : N -> list N.

(** The engine's table maps no code point to an ASCII lowercase letter. *)
Hypothesis upper_not_lower :
  forall cp, (128 <= cp)%N -> Forall (fun c => Str.isAsciiLower c = false) (upper cp).

Lemma toUpperCase_not_lower (s : jsstring) :
  Forall (fun c => Str.isAsciiLower c = false) (Str.toUpperCase upper s).
Proof.
  unfold Str.toUpperCase, Str.fromCodePoints.
  generalize (Str.toCodePoints s) as cps; intros cps.
  induction cps as [|cp cps IH]; simpl; [constructor|].
  rewrite flat_map_app; apply Forall_app; split; [|exact IH].
  assert (Hcp : Forall (fun c => Str.isAsciiLower c = false)
                  (Str.upperCodePoint upper cp)).
  { unfold Str.upperCodePoint; destruct (N.ltb_spec cp 128).
    - repeat constructor; apply asciiUpper_not_lower.
    - now apply upper_not_lower. }
  induction Hcp as [|x l Hx _ IHl]; simpl; [constructor|].
  apply Forall_app; split; [now apply utf16Encode_not_lower | exact IHl].
Qed.
End Upper.

(** *** encodeURIComponent *)

Lemma hexDigit_safe (d : N) : urlSafe (Str.hexDigit d) = true.
Proof.
  unfold Str.hexDigit.
  destruct (N.to_nat d) as [|n]; [reflexivity|].
  do 15 (destruct n as [|n]; [reflexivity|]).
  simpl; destruct n; reflexivity.
Qed.

Lemma percentEncode_safe (cp : N) : Forall (fun c => urlSafe c = true) (Str.percentEncode cp).
Proof.
  unfold Str.percentEncode; apply Forall_flat_map; intros o.
  unfold Str.percent; repeat constructor; apply hexDigit_safe.
Qed.

(** The encoded text holds unreserved characters and percent escapes
    only: no comma, space, ampersand or equals sign. *)
Lemma encodeURIComponent_safe (s e : jsstring) :
  Str.encodeURIComponent s = Returns e -> Forall (fun c => urlSafe c = true) e.
Proof.
  remember (length s) as n eqn:Hn; revert s e Hn.
  induction n as [n IH] using lt_wf_ind; intros s e Hn.
  destruct s as [|c s]; simpl.
  - intros [= <-]; constructor.
  - assert (Hrec : forall (p s' : jsstring),
               length s' < n -> Forall (fun c => urlSafe c = true) p ->
               Str.prepend p (Str.encodeURIComponent s') = Returns e ->
               Forall (fun c => urlSafe c = true) e).
    { intros p s' Hlt Hp H.
      destruct (Str.encodeURIComponent s') as [e'|] eqn:E; simpl in H; [|discriminate].
      injection H as <-; apply Forall_app; split; [exact Hp|].
      eapply IH; [exact Hlt | reflexivity | exact E]. }
    simpl in Hn.
    destruct (Str.isUnreserved c) eqn:Hu.
    + apply Hrec; [lia|]; repeat constructor; unfold urlSafe; now rewrite Hu.
    + destruct (Str.isLeadingSurrogate c).
      * destruct s as [|d s]; [discriminate|].
        destruct (Str.isTrailingSurrogate d); [|discriminate].
        apply Hrec; [simpl in Hn; lia | apply percentEncode_safe].
      * destruct (Str.isTrailingSurrogate c); [discriminate|].
        apply Hrec; [lia | apply percentEncode_safe].
Qed.

End StrFacts.

(** ** The encoding loses nothing *)

(** [lia] is to read the divisions by 16, 64, 1024 and 4096 of the
    encoders. *)
Ltac Zify.zify_post_hook ::= Z.to_euclidean_division_equations.

Module UriFacts.

(** Induction on a list two elements at a time, as the functions that
    read a surrogate pair recurse. *)
Lemma list_ind2 {A} (P : list A -> Prop) :
  P [] -> (forall a, P [a]) ->
  (forall a b l, P l -> P (b :: l) -> P (a :: b :: l)) ->
  forall l, P l.
Proof.
  intros H0 H1 H2 l.
  assert (H : P l /\ forall a, P (a :: l)).
  { induction l as [|b l [IHl IHbl]]; [auto|].
    split; [apply IHbl|]. intros a; apply H2; auto. }
  apply H.
Qed.

Lemma unhex_hexDigit (d : N) : (d < 16)%N -> unhex (Str.hexDigit d) = Some d.
Proof.
  intros H; rewrite <- (N2Nat.id d).
  assert (Hn : N.to_nat d < 16) by lia.
  destruct (N.to_nat d) as [|n]; [reflexivity|].
  do 15 (destruct n as [|n]; [reflexivity|]); lia.
Qed.

Lemma octets_percent (o : N) (r : jsstring) :
  (o < 256)%N -> octets (Str.percent o ++ r) = option_map (cons o) (octets r).
Proof.
  intros H; unfold Str.percent; cbn [app octets N.eqb Pos.eqb].
  rewrite !unhex_hexDigit by lia.
  replace (16 * (o / 16) + o mod 16)%N with o by lia.
  now destruct (octets r).
Qed.

Lemma octets_percents (l : list N) (r : jsstring) :
  Forall (fun o => (o < 256)%N) l ->
  octets (flat_map Str.percent l ++ r) = option_map (app l) (octets r).
Proof.
  induction 1 as [|o l Ho _ IH].
  - simpl; now destruct (octets r).
  - change (flat_map Str.percent (o :: l)) with (Str.percent o ++ flat_map Str.percent l).
    rewrite <- app_assoc, octets_percent, IH by exact Ho.
    now destruct (octets r).
Qed.

Lemma utf8_octets (cp : N) :
  (cp < 1114112)%N -> Forall (fun o => (o < 256)%N) (Str.utf8 cp).
Proof.
  intros H; unfold Str.utf8.
  destruct (N.ltb_spec cp 128); [repeat constructor; lia|].
  destruct (N.ltb_spec cp 2048); [repeat constructor; lia|].
  destruct (N.ltb_spec cp 65536); repeat constructor; lia.
Qed.

Lemma utf8Decode_utf8 (cp : N) (r : list N) :
  (cp < 1114112)%N -> utf8Decode (Str.utf8 cp ++ r) = option_map (cons cp) (utf8Decode r).
Proof.
  intros H; unfold Str.utf8.
  destruct (N.ltb_spec cp 128) as [H1|H1].
  - cbn [app utf8Decode]. destruct (N.ltb_spec cp 128); [reflexivity | lia].
  - destruct (N.ltb_spec cp 2048) as [H2|H2].
    + cbn [app utf8Decode].
      destruct (N.ltb_spec (192 + cp / 64) 128); [lia|].
      destruct (N.ltb_spec (192 + cp / 64) 224); [|lia].
      replace ((192 + cp / 64 - 192) * 64 + (128 + cp mod 64 - 128))%N with cp by lia.
      reflexivity.
    + destruct (N.ltb_spec cp 65536) as [H3|H3].
      * cbn [app utf8Decode].
        destruct (N.ltb_spec (224 + cp / 4096) 128); [lia|].
        destruct (N.ltb_spec (224 + cp / 4096) 224); [lia|].
        destruct (N.ltb_spec (224 + cp / 4096) 240); [|lia].
        replace ((224 + cp / 4096 - 224) * 4096 + (128 + (cp / 64) mod 64 - 128) * 64
                 + (128 + cp mod 64 - 128))%N with cp by lia.
        reflexivity.
      * cbn [app utf8Decode].
        destruct (N.ltb_spec (240 + cp / 262144) 128); [lia|].
        destruct (N.ltb_spec (240 + cp / 262144) 224); [lia|].
        destruct (N.ltb_spec (240 + cp / 262144) 240); [lia|].
        replace ((240 + cp / 262144 - 240) * 262144
                 + (128 + (cp / 4096) mod 64 - 128) * 4096
                 + (128 + (cp / 64) mod 64 - 128) * 64
                 + (128 + cp mod 64 - 128))%N with cp by lia.
        reflexivity.
Qed.

Lemma utf8Decode_flat (cps : list N) :
  Forall (fun cp => (cp < 1114112)%N) cps ->
  utf8Decode (flat_map Str.utf8 cps) = Some cps.
Proof.
  induction 1 as [|cp cps Hcp _ IH]; [reflexivity|].
  simpl flat_map; rewrite utf8Decode_utf8, IH by exact Hcp; reflexivity.
Qed.

Lemma surrogatePair_range (hi lo : N) :
  Str.isLeadingSurrogate hi = true -> Str.isTrailingSurrogate lo = true ->
  (65536 <= Str.surrogatePairToCodePoint hi lo < 1114112)%N
  /\ Str.utf16Encode (Str.surrogatePairToCodePoint hi lo) = [hi; lo].
Proof.
  unfold Str.isLeadingSurrogate, Str.isTrailingSurrogate; intros Hhi Hlo.
  apply andb_true_iff in Hhi as [H1 H2], Hlo as [H3 H4].
  apply N.leb_le in H1, H2, H3, H4.
  unfold Str.surrogatePairToCodePoint, Str.utf16Encode.
  split; [lia|].
  destruct (N.leb_spec ((hi - 55296) * 1024 + (lo - 56320) + 65536) 65535); [lia|].
  f_equal; [lia | f_equal; lia].
Qed.

Lemma toCodePoints_cons (c : N) (s : jsstring) :
  Str.toCodePoints (c :: s)
  = if Str.isLeadingSurrogate c then
      match s with
      | d :: s' =>
          if Str.isTrailingSurrogate d
          then Str.surrogatePairToCodePoint c d :: Str.toCodePoints s'
          else c :: Str.toCodePoints s
      | [] => [c]
      end
    else c :: Str.toCodePoints s.
Proof. destruct s; reflexivity. Qed.

Lemma toCodePoints_range (s : jsstring) :
  wellFormed s -> Forall (fun cp => (cp < 1114112)%N) (Str.toCodePoints s).
Proof.
  unfold wellFormed; induction s as [|c|c d s IHs IHds] using list_ind2; intros H.
  - constructor.
  - inversion H; subst; simpl; destruct (Str.isLeadingSurrogate c);
      repeat constructor; lia.
  - inversion H as [|? ? Hc Hds]; subst.
    inversion Hds as [|? ? Hd Hs]; subst.
    rewrite (toCodePoints_cons c (d :: s)).
    destruct (Str.isLeadingSurrogate c) eqn:Hlead.
    + destruct (Str.isTrailingSurrogate d) eqn:Htrail.
      * constructor; [|now apply IHs].
        destruct (surrogatePair_range c d Hlead Htrail) as [? _]; lia.
      * constructor; [lia | now apply IHds].
    + constructor; [lia | now apply IHds].
Qed.

Lemma fromCodePoints_toCodePoints (s : jsstring) :
  wellFormed s -> Str.fromCodePoints (Str.toCodePoints s) = s.
Proof.
  assert (Hbmp : forall c, (c < 65536)%N -> Str.utf16Encode c = [c]).
  { intros c Hc; unfold Str.utf16Encode; destruct (N.leb_spec c 65535); [reflexivity | lia]. }
  unfold wellFormed, Str.fromCodePoints.
  induction s as [|c|c d s IHs IHds] using list_ind2; intros H.
  - reflexivity.
  - inversion H; subst; simpl; destruct (Str.isLeadingSurrogate c);
      simpl; rewrite Hbmp by assumption; reflexivity.
  - inversion H as [|? ? Hc Hds]; subst.
    inversion Hds as [|? ? Hd Hs]; subst.
    rewrite (toCodePoints_cons c (d :: s)).
    destruct (Str.isLeadingSurrogate c) eqn:Hlead.
    + destruct (Str.isTrailingSurrogate d) eqn:Htrail.
      * cbn [flat_map].
        destruct (surrogatePair_range c d Hlead Htrail) as [_ ->].
        now rewrite IHs.
      * cbn [flat_map]; rewrite (Hbmp c Hc), IHds by assumption; reflexivity.
    + cbn [flat_map]; rewrite (Hbmp c Hc), IHds by assumption; reflexivity.
Qed.

Lemma encodeURIComponent_cons (c : N) (s : jsstring) :
  Str.encodeURIComponent (c :: s)
  = if Str.isUnreserved c then Str.prepend [c] (Str.encodeURIComponent s)
    else if Str.isLeadingSurrogate c then
      match s with
      | d :: s' =>
          if Str.isTrailingSurrogate d
          then Str.prepend (Str.percentEncode (Str.surrogatePairToCodePoint c d))
                 (Str.encodeURIComponent s')
          else Throws URIError
      | [] => Throws URIError
      end
    else if Str.isTrailingSurrogate c then Throws URIError
    else Str.prepend (Str.percentEncode c) (Str.encodeURIComponent s).
Proof. destruct s; reflexivity. Qed.

Lemma prepend_returns (p : jsstring) (r : completion jsstring) (e : jsstring) :
  Str.prepend p r = Returns e -> exists e', r = Returns e' /\ e = p ++ e'.
Proof.
  destruct r as [e'|err]; simpl; intros H; [|discriminate H].
  injection H as <-; now exists e'.
Qed.

Lemma isUnreserved_ascii (c : N) :
  Str.isUnreserved c = true ->
  (c < 128)%N /\ N.eqb c 37 = false /\ Str.isLeadingSurrogate c = false.
Proof.
  intros H.
  assert (Hc : (c < 128)%N).
  { unfold Str.isUnreserved, Str.isAsciiLower, Str.isAsciiUpper, Str.isDigit in H.
    repeat (apply orb_true_iff in H as [H|H]);
      try (apply andb_true_iff in H as [_ H]; apply N.leb_le in H; lia);
      try discriminate H;
      apply N.eqb_eq in H; subst c; reflexivity. }
  split; [exact Hc|]; split.
  - destruct (N.eqb_spec c 37) as [->|]; [discriminate H | reflexivity].
  - unfold Str.isLeadingSurrogate; apply andb_false_iff; left; apply N.leb_gt; lia.
Qed.

Lemma octets_unreserved (c : N) (e : jsstring) (o : list N) :
  Str.isUnreserved c = true -> octets e = Some o ->
  octets (c :: e) = Some (Str.utf8 c ++ o).
Proof.
  intros Hc He; destruct (isUnreserved_ascii c Hc) as (Hlt & H37 & _).
  cbn [octets]; rewrite H37, He; unfold Str.utf8.
  destruct (N.ltb_spec c 128); [reflexivity | lia].
Qed.

Lemma octets_percentEncode (cp : N) (e : jsstring) (o : list N) :
  (cp < 1114112)%N -> octets e = Some o ->
  octets (Str.percentEncode cp ++ e) = Some (Str.utf8 cp ++ o).
Proof.
  intros Hcp He; unfold Str.percentEncode.
  rewrite octets_percents by (now apply utf8_octets); now rewrite He.
Qed.

(** The octets of the encoded text are the UTF-8 octets of the code
    points of the string. *)
Lemma octets_encodeURIComponent (s : jsstring) :
  wellFormed s -> forall e,
  Str.encodeURIComponent s = Returns e ->
  octets e = Some (flat_map Str.utf8 (Str.toCodePoints s)).
Proof.
  unfold wellFormed; induction s as [|c|c d s IHs IHds] using list_ind2; intros H e He.
  - injection He as <-; reflexivity.
  - inversion H as [|? ? Hc _]; subst.
    rewrite encodeURIComponent_cons in He; rewrite toCodePoints_cons.
    destruct (Str.isUnreserved c) eqn:Hu.
    + injection He as <-.
      destruct (isUnreserved_ascii c Hu) as (_ & _ & ->).
      now apply octets_unreserved.
    + destruct (Str.isLeadingSurrogate c); [discriminate He|].
      destruct (Str.isTrailingSurrogate c); [discriminate He|].
      injection He as <-; apply octets_percentEncode; [lia | reflexivity].
  - inversion H as [|? ? Hc Hds]; subst.
    inversion Hds as [|? ? Hd Hs]; subst.
    rewrite encodeURIComponent_cons in He; rewrite (toCodePoints_cons c (d :: s)).
    destruct (Str.isUnreserved c) eqn:Hu.
    + apply prepend_returns in He as (e' & He' & ->).
      destruct (isUnreserved_ascii c Hu) as (_ & _ & ->).
      apply octets_unreserved; [exact Hu | now apply IHds].
    + destruct (Str.isLeadingSurrogate c) eqn:Hlead.
      * destruct (Str.isTrailingSurrogate d) eqn:Htrail; [|discriminate He].
        apply prepend_returns in He as (e' & He' & ->).
        destruct (surrogatePair_range c d Hlead Htrail) as [Hcp _].
        apply octets_percentEncode; [lia | now apply IHs].
      * destruct (Str.isTrailingSurrogate c); [discriminate He|].
        apply prepend_returns in He as (e' & He' & ->).
        apply octets_percentEncode; [lia | now apply IHds].
Qed.

(** Decoding what [encodeURIComponent] returns gives the string back. *)
Lemma percentDecode_encodeURIComponent (s e : jsstring) :
  wellFormed s -> Str.encodeURIComponent s = Returns e -> percentDecode e = Some s.
Proof.
  intros Hwf He; unfold percentDecode.
  rewrite (octets_encodeURIComponent s Hwf e He).
  rewrite utf8Decode_flat by (now apply toCodePoints_range).
  simpl; now rewrite fromCodePoints_toCodePoints.
Qed.

End UriFacts.

(** ** Computations *)

Lemma bind_ret_l {A B} (a : A) (k : A -> M B) : bind (ret a) k = k a.
Proof. unfold bind, ret; simpl; now destruct (k a). Qed.

Lemma bind_lift_returns {A B} (a : A) (k : A -> M B) : bind (lift (Returns a)) k = k a.
Proof. apply bind_ret_l. Qed.

Lemma bind_ext {A B} (m : M A) (k k' : A -> M B) :
  (forall a, k a = k' a) -> bind m k = bind m k'.
Proof. intros H; destruct m as [t [a|e]]; simpl; [now rewrite H | reflexivity]. Qed.

Lemma trace_bind_emit {A} (ev : event) (m : M A) :
  trace (emit ev ;;; m) = ev :: trace m.
Proof. destruct m as [t r]; reflexivity. Qed.

Lemma result_bind_emit {A} (ev : event) (m : M A) :
  result (emit ev ;;; m) = result m.
Proof. destruct m as [t r]; reflexivity. Qed.

Lemma result_bind {A B} (m : M A) (k : A -> M B) (a : A) :
  result m = Returns a -> result (bind m k) = result (k a).
Proof.
  destruct m as [t r]; simpl; intros ->; simpl; now destruct (k a).
Qed.

Lemma trace_bind {A B} (m : M A) (k : A -> M B) (a : A) :
  result m = Returns a -> trace (bind m k) = trace m ++ trace (k a).
Proof.
  destruct m as [t r]; simpl; intros ->; simpl; now destruct (k a).
Qed.

(** ** The document after rendering *)

Lemma renderHeader_content (b : block) (tags : value) :
  renderHeader b tags = {| cqTags := cqTags b; content := content b ++ header tags |}.
Proof.
  unfold header, renderHeader.
  destruct (negb (truthy tags) || Nat.eqb (lengthOf tags) 0); simpl.
  - rewrite app_nil_r; now destruct b.
  - reflexivity.
Qed.

Lemma appendToLast_app (l : list node) (g : node) (kids : list node) :
  appendToLast (l ++ [g]) kids = l ++ [appendChildren g kids].
Proof.
  induction l as [|n l IH]; [reflexivity|].
  simpl; rewrite <- IH.
  destruct (l ++ [g]) eqn:E; [now destruct l | reflexivity].
Qed.

Lemma gridAppend_rendered (b : block) (tags : value) (kids : list node) :
  gridAppend (append (renderHeader (clear b) tags) (element "div" "cpl-grid" [])) kids
  = {| cqTags := cqTags b; content := rendered tags kids |}.
Proof.
  rewrite renderHeader_content; unfold gridAppend, append, rendered; simpl.
  now rewrite appendToLast_app.
Qed.

Lemma isLegacyLuma3_includes (folderHref : jsstring) :
  Str.includes folderHref (lit "/dam/luma3/") = true -> isLegacyLuma3 folderHref = true.
Proof.
  intros H; unfold isLegacyLuma3; rewrite H.
  destruct folderHref; [discriminate H | reflexivity].
Qed.

(** ** The fetch strategies and [decorate], case by case *)

(** Closes a goal that says the rest of a trace is made of error logs. *)
Ltac error_log :=
  repeat first [apply Forall_nil | apply Forall_cons; [now eexists|]].

Section Strategies.

Variable E : platform.

(** [decorate] is the resolution of the folder path followed by the fetch
    and the rendering of what was fetched. *)
Lemma decorate_resolved (b : block) :
  decorate E b =
  (folderHref <- lift (resolveFolder E b) ;;
   items <- fetchProducts E folderHref (resolveTags E b) ;;
   ret {| cqTags := cqTags b;
          content := rendered (resolveTags E b) (gridChildren E items) |}).
Proof.
  unfold decorate, resolveFolder, resolveTags.
  apply bind_ext; intros folderHref.
  apply bind_ext; intros items.
  unfold gridChildren; destruct (Nat.eqb (length items) 0);
    now rewrite gridAppend_rendered.
Qed.

Lemma decorate_returns (b : block) (folderHref : jsstring) :
  resolveFolder E b = Returns folderHref ->
  decorate E b =
  (items <- fetchProducts E folderHref (resolveTags E b) ;;
   ret {| cqTags := cqTags b;
          content := rendered (resolveTags E b) (gridChildren E items) |}).
Proof. intros H; rewrite decorate_resolved, H; now rewrite bind_lift_returns. Qed.

Lemma fetchLegacyProducts_request (path : jsstring) :
  path <> [] ->
  fetchLegacyProducts E path
  = settle E legacyError (legacyBaseUrl E ++ lit "_path=" ++ path).
Proof.
  intros Hne; destruct path as [|c path]; [congruence|].
  unfold fetchLegacyProducts, settle, httpGet, Str.isEmpty.
  destruct (fetch E _) as [[|j]|]; reflexivity.
Qed.

Lemma fetchCategoryFilteredProducts_request
  (path : jsstring) (categoryFilter : option value) :
  path <> [] ->
  fetchCategoryFilteredProducts E path categoryFilter
  = match categoryUrl E path categoryFilter with
    | Returns u => settle E categoryError u
    | Throws e => ([ConsoleError categoryError e], Returns [])
    end.
Proof.
  intros Hne; destruct path as [|c path]; [congruence|].
  unfold fetchCategoryFilteredProducts, Str.isEmpty.
  destruct (categoryUrl E (c :: path) categoryFilter) as [u|e]; [|reflexivity].
  rewrite bind_lift_returns; unfold settle, httpGet.
  destruct (fetch E _) as [[|j]|]; reflexivity.
Qed.

(** A request is logged first; what follows it in the trace is the log of
    the failure, if any. *)
Lemma settle_trace (msg u : jsstring) :
  exists log,
    trace (settle E msg u) = Fetch (getRequest u) :: log
    /\ Forall (fun ev => exists e, ev = ConsoleError msg e) log.
Proof.
  unfold settle; destruct (fetch E _) as [[|j]|]; simpl; eexists;
    (split; [reflexivity|]); error_log.
Qed.

Lemma settle_fails (msg u : jsstring) :
  fails E (getRequest u) -> result (settle E msg u) = Returns [].
Proof. unfold settle; intros [-> | ->]; reflexivity. Qed.

(** Whatever the network does, a strategy returns a sequence. *)
Lemma settle_returns (msg u : jsstring) :
  exists l, result (settle E msg u) = Returns l.
Proof. unfold settle; destruct (fetch E _) as [[|j]|]; eexists; reflexivity. Qed.

Lemma fetchLegacyProducts_returns (path : jsstring) :
  exists l, result (fetchLegacyProducts E path) = Returns l.
Proof.
  destruct path as [|c path]; [now exists []|].
  rewrite fetchLegacyProducts_request by discriminate; apply settle_returns.
Qed.

Lemma fetchCategoryFilteredProducts_returns
  (path : jsstring) (categoryFilter : option value) :
  exists l, result (fetchCategoryFilteredProducts E path categoryFilter) = Returns l.
Proof.
  destruct path as [|c path]; [now exists []|].
  rewrite fetchCategoryFilteredProducts_request by discriminate.
  destruct (categoryUrl _ _ _); [apply settle_returns | now exists []].
Qed.

Lemma fetchProducts_returns (folderHref : jsstring) (tags : value) :
  exists l, result (fetchProducts E folderHref tags) = Returns l.
Proof.
  unfold fetchProducts; destruct (isLegacyLuma3 folderHref);
    rewrite result_bind_emit;
    [apply fetchLegacyProducts_returns | apply fetchCategoryFilteredProducts_returns].
Qed.

(** The rendering of a block whose folder path resolves: the document it
    leaves for the fetched records. *)
Lemma decorate_result (b : block) (folderHref : jsstring) (l : list (option Item.t)) :
  resolveFolder E b = Returns folderHref ->
  result (fetchProducts E folderHref (resolveTags E b)) = Returns l ->
  result (decorate E b)
  = Returns {| cqTags := cqTags b;
               content := rendered (resolveTags E b) (gridChildren E l) |}.
Proof.
  intros Hres Hl; rewrite (decorate_returns _ _ Hres).
  now rewrite (result_bind _ _ _ Hl).
Qed.

Lemma decorate_trace (b : block) (folderHref : jsstring) :
  resolveFolder E b = Returns folderHref ->
  trace (decorate E b) = trace (fetchProducts E folderHref (resolveTags E b)).
Proof.
  intros Hres; rewrite (decorate_returns _ _ Hres).
  destruct (fetchProducts_returns folderHref (resolveTags E b)) as [l Hl].
  rewrite (trace_bind _ _ _ Hl); apply app_nil_r.
Qed.

End Strategies.

(** ** The run of [decorate], in full *)

Lemma emit_bind {A} (ev : event) (m : M A) :
  (emit ev ;;; m) = (ev :: trace m, result m).
Proof. destruct m as [t r]; reflexivity. Qed.

Lemma settle_cases (E : platform) (msg u : jsstring) :
  (exists j, fetch E (getRequest u) = Some (Json j)
             /\ settle E msg u = ([Fetch (getRequest u)], Returns (itemsOf j)))
  \/ (exists e, fails E (getRequest u)
                /\ settle E msg u
                   = ([Fetch (getRequest u); ConsoleError msg e], Returns [])).
Proof.
  unfold settle, fails; destruct (fetch E (getRequest u)) as [[|j]|].
  - right; exists SyntaxError; auto.
  - left; exists j; auto.
  - right; exists TypeError; auto.
Qed.

Lemma categoryUrl_prefix (E : platform) (path : jsstring) (cf : option value) (u : jsstring) :
  categoryUrl E path cf = Returns u ->
  exists tail, u = categoryBaseUrl E ++ lit "_path=" ++ path ++ tail.
Proof.
  unfold categoryUrl; intros H.
  assert (Hplain : Returns (categoryBaseUrl E ++ lit "_path=" ++ path) = Returns u ->
                   exists tail, u = categoryBaseUrl E ++ lit "_path=" ++ path ++ tail).
  { intros [= <-]; exists []; now rewrite app_nil_r. }
  destruct cf as [v|]; [|auto].
  destruct (truthy v); [|auto].
  apply UriFacts.prepend_returns in H as (e & _ & ->).
  exists (lit "&category=" ++ e); now rewrite <- !app_assoc.
Qed.

(** The run of [decorate] on a block whose folder path resolves: the
    strategy invoked, then no request (empty path, or tags that cannot be
    encoded), or one request and the records of its response, or one
    request and the log of its failure. *)
Lemma decorate_run (E : platform) (b : block) (folderHref : jsstring) :
  resolveFolder E b = Returns folderHref ->
  let s := strategyOf folderHref in
  let tags := resolveTags E b in
  (folderHref = [] /\ decorate E b
     = ([Invoke s], Returns {| cqTags := cqTags b;
                               content := rendered tags [emptyMessage] |}))
  \/ (exists e, decorate E b
        = ([Invoke s; ConsoleError (errorOf s) e],
           Returns {| cqTags := cqTags b; content := rendered tags [emptyMessage] |})
        /\ s = CategoryFiltered
        /\ categoryUrl E folderHref (Some tags) = Throws e)
  \/ (exists tail j,
        fetch E (getRequest (baseUrlOf E s ++ lit "_path=" ++ folderHref ++ tail))
        = Some (Json j)
        /\ decorate E b
           = ([Invoke s;
               Fetch (getRequest (baseUrlOf E s ++ lit "_path=" ++ folderHref ++ tail))],
              Returns {| cqTags := cqTags b;
                         content := rendered tags (gridChildren E (itemsOf j)) |}))
  \/ (exists tail e,
        fails E (getRequest (baseUrlOf E s ++ lit "_path=" ++ folderHref ++ tail))
        /\ decorate E b
           = ([Invoke s;
               Fetch (getRequest (baseUrlOf E s ++ lit "_path=" ++ folderHref ++ tail));
               ConsoleError (errorOf s) e],
              Returns {| cqTags := cqTags b;
                         content := rendered tags [emptyMessage] |})).
Proof.
  intros Hres s tags; subst s tags.
  rewrite (decorate_returns E b folderHref Hres).
  unfold fetchProducts, strategyOf.
  assert (Hsettle : forall st msg u tail,
            u = baseUrlOf E st ++ lit "_path=" ++ folderHref ++ tail ->
            msg = errorOf st ->
            let run := (items <- (emit (Invoke st) ;;; settle E msg u) ;;
                        ret {| cqTags := cqTags b;
                               content := rendered (resolveTags E b)
                                            (gridChildren E items) |}) in
            (exists tail j,
               fetch E (getRequest (baseUrlOf E st ++ lit "_path=" ++ folderHref ++ tail))
               = Some (Json j)
               /\ run = ([Invoke st;
                          Fetch (getRequest (baseUrlOf E st ++ lit "_path="
                                             ++ folderHref ++ tail))],
                         Returns {| cqTags := cqTags b;
                                    content := rendered (resolveTags E b)
                                                 (gridChildren E (itemsOf j)) |}))
            \/ (exists tail e,
                  fails E (getRequest (baseUrlOf E st ++ lit "_path="
                                       ++ folderHref ++ tail))
                  /\ run = ([Invoke st;
                             Fetch (getRequest (baseUrlOf E st ++ lit "_path="
                                                ++ folderHref ++ tail));
                             ConsoleError (errorOf st) e],
                            Returns {| cqTags := cqTags b;
                                       content := rendered (resolveTags E b)
                                                    [emptyMessage] |}))).
  { intros st msg u tail -> -> run; subst run.
    destruct (settle_cases E (errorOf st)
                (baseUrlOf E st ++ lit "_path=" ++ folderHref ++ tail))
      as [(j & Hj & ->)|(e & Hf & ->)].
    - left; exists tail, j; split; [exact Hj | reflexivity].
    - right; exists tail, e; split; [exact Hf | reflexivity]. }
  destruct (isLegacyLuma3 folderHref) eqn:Hleg.
  - right; right.
    rewrite fetchLegacyProducts_request
      by (intros ->; discriminate Hleg).
    apply (Hsettle Legacy legacyError _ []); [now rewrite app_nil_r | reflexivity].
  - destruct folderHref as [|c f]; [left; split; reflexivity|].
    rewrite fetchCategoryFilteredProducts_request by discriminate.
    destruct (categoryUrl E (c :: f) (Some (resolveTags E b))) as [u|e] eqn:Hu.
    + right; right.
      destruct (categoryUrl_prefix E _ _ u Hu) as [tail Htail].
      apply (Hsettle CategoryFiltered categoryError u tail); [exact Htail | reflexivity].
    + right; left; exists e; repeat split.
Qed.

Ltac run_cases E b f Hres :=
  let H := fresh "Hrun" in
  pose proof (decorate_run E b f Hres) as H; cbv zeta in H;
  destruct H as [[? H]|[(? & H & ? & ?)|[(? & ? & ? & H)|(? & ? & ? & H)]]];
  rewrite H; clear H.

Lemma decorate_strategies (E : platform) (b : block) (folderHref : jsstring) :
  resolveFolder E b = Returns folderHref ->
  strategiesOf (trace (decorate E b)) = [strategyOf folderHref].
Proof. intros Hres; run_cases E b folderHref Hres; reflexivity. Qed.

(** ** The legacy strategy *)

(** C1.  When the resolved folder path contains the marker [/dam/luma3/],
    [decorate] invokes the legacy strategy and nothing else: its trace is
    the invocation, one GET request whose URL is the legacy base followed
    by [_path=] and the folder path and nothing more, and at most the log
    of a failed fetch.  The category-filtered strategy is not invoked and
    no [category] parameter is appended; a block that resolves to the same
    path with other tags has the same trace. *)
Theorem legacy_folder_uses_legacy_strategy
  (E : platform) (b : block) (folderHref : jsstring) :
  resolveFolder E b = Returns folderHref ->
  Str.includes folderHref (lit "/dam/luma3/") = true ->
  (exists log,
     trace (decorate E b)
     = Invoke Legacy
       :: Fetch (getRequest (legacyBaseUrl E ++ lit "_path=" ++ folderHref))
       :: log
     /\ Forall (fun ev => exists e, ev = ConsoleError legacyError e) log)
  /\ ~ In (Invoke CategoryFiltered) (trace (decorate E b))
  /\ (forall b', resolveFolder E b' = Returns folderHref ->
        trace (decorate E b') = trace (decorate E b)).
Proof.
  intros Hres Hinc.
  assert (Hne : folderHref <> []) by (intros ->; discriminate Hinc).
  assert (Htrace : forall b',
             resolveFolder E b' = Returns folderHref ->
             trace (decorate E b')
             = Invoke Legacy
               :: trace (settle E legacyError
                           (legacyBaseUrl E ++ lit "_path=" ++ folderHref))).
  { intros b' Hres'.
    rewrite (decorate_trace _ _ _ Hres'); unfold fetchProducts.
    rewrite (isLegacyLuma3_includes _ Hinc), trace_bind_emit.
    now rewrite fetchLegacyProducts_request. }
  rewrite (Htrace b Hres).
  destruct (settle_trace E legacyError (legacyBaseUrl E ++ lit "_path=" ++ folderHref))
    as (log & Hlog & Herr).
  split; [|split].
  - exists log; now rewrite Hlog.
  - rewrite Hlog; intros [H|[H|H]]; try discriminate H.
    rewrite Forall_forall in Herr; destruct (Herr _ H) as [e He]; discriminate He.
  - intros b' Hres'; apply Htrace, Hres'.
Qed.

Lemma legacy_folder_uses_legacy_strategy_witness :
  resolveFolder legacyPlatform menBlock = Returns (lit "/content/dam/luma3/men-products")
  /\ Str.includes (lit "/content/dam/luma3/men-products") (lit "/dam/luma3/") = true
  /\ (exists log,
        trace (decorate legacyPlatform menBlock)
        = Invoke Legacy
          :: Fetch (getRequest (legacyBaseUrl legacyPlatform
                                ++ lit "_path=" ++ lit "/content/dam/luma3/men-products"))
          :: log
        /\ Forall (fun ev => exists e, ev = ConsoleError legacyError e) log)
  /\ ~ In (Invoke CategoryFiltered) (trace (decorate legacyPlatform menBlock)).
Proof.
  split; [reflexivity|]; split; [reflexivity|].
  destruct (legacy_folder_uses_legacy_strategy legacyPlatform menBlock
              (lit "/content/dam/luma3/men-products") eq_refl eq_refl)
    as (Hlog & Hnot & _).
  split; [exact Hlog | exact Hnot].
Defined.

(** ** Failures of the fetch *)

(** C3.  When the request of a strategy fails (the network rejects it, or
    the body is not JSON), the strategy catches the exception and returns
    the empty sequence; so does the category-filtered strategy when the
    encoding of its tags throws.  A strategy returns a sequence whatever
    happens.  So when the request that a run of [decorate] sends fails,
    the run does not throw: it has sent that one request and no other,
    logs the failure once and completes with the empty-state message
    alone in the grid, whatever another request would have been
    answered. *)
Theorem fetch_failure_renders_empty_state (E : platform) :
  (forall path,
     fails E (getRequest (legacyBaseUrl E ++ lit "_path=" ++ path)) ->
     result (fetchLegacyProducts E path) = Returns [])
  /\ (forall path categoryFilter u,
        categoryUrl E path categoryFilter = Returns u ->
        fails E (getRequest u) ->
        result (fetchCategoryFilteredProducts E path categoryFilter) = Returns [])
  /\ (forall path categoryFilter e,
        categoryUrl E path categoryFilter = Throws e ->
        result (fetchCategoryFilteredProducts E path categoryFilter) = Returns [])
  /\ (forall path, exists l, result (fetchLegacyProducts E path) = Returns l)
  /\ (forall path categoryFilter,
        exists l, result (fetchCategoryFilteredProducts E path categoryFilter) = Returns l)
  /\ (forall b folderHref,
        resolveFolder E b = Returns folderHref ->
        isLegacyLuma3 folderHref = true ->
        fails E (getRequest (legacyBaseUrl E ++ lit "_path=" ++ folderHref)) ->
        exists e,
          decorate E b
          = ([Invoke Legacy;
              Fetch (getRequest (legacyBaseUrl E ++ lit "_path=" ++ folderHref));
              ConsoleError legacyError e],
             Returns {| cqTags := cqTags b;
                        content := header (resolveTags E b)
                                   ++ [element "div" "cpl-grid" [emptyMessage]] |}))
  /\ (forall b folderHref u,
        resolveFolder E b = Returns folderHref ->
        isLegacyLuma3 folderHref = false ->
        folderHref <> [] ->
        categoryUrl E folderHref (Some (resolveTags E b)) = Returns u ->
        fails E (getRequest u) ->
        exists e,
          decorate E b
          = ([Invoke CategoryFiltered; Fetch (getRequest u);
              ConsoleError categoryError e],
             Returns {| cqTags := cqTags b;
                        content := header (resolveTags E b)
                                   ++ [element "div" "cpl-grid" [emptyMessage]] |}))
  /\ (forall b folderHref e,
        resolveFolder E b = Returns folderHref ->
        isLegacyLuma3 folderHref = false ->
        folderHref <> [] ->
        categoryUrl E folderHref (Some (resolveTags E b)) = Throws e ->
        decorate E b
        = ([Invoke CategoryFiltered; ConsoleError categoryError e],
           Returns {| cqTags := cqTags b;
                      content := header (resolveTags E b)
                                 ++ [element "div" "cpl-grid" [emptyMessage]] |}))
  /\ (forall b folderHref r,
        resolveFolder E b = Returns folderHref ->
        In (Fetch r) (trace (decorate E b)) ->
        fails E r ->
        exists e,
          decorate E b
          = ([Invoke (strategyOf folderHref); Fetch r;
              ConsoleError (errorOf (strategyOf folderHref)) e],
             Returns {| cqTags := cqTags b;
                        content := header (resolveTags E b)
                                   ++ [element "div" "cpl-grid" [emptyMessage]] |}))
  /\ (forall b folderHref,
        resolveFolder E b = Returns folderHref ->
        (forall r, fails E r) ->
        result (decorate E b)
        = Returns {| cqTags := cqTags b;
                     content := header (resolveTags E b)
                                ++ [element "div" "cpl-grid" [emptyMessage]] |}).
Proof.
  assert (Hleg : forall path,
             fails E (getRequest (legacyBaseUrl E ++ lit "_path=" ++ path)) ->
             result (fetchLegacyProducts E path) = Returns []).
  { intros [|c path] Hfail; [reflexivity|].
    rewrite fetchLegacyProducts_request by discriminate; now apply settle_fails. }
  assert (Hcat : forall path cf u,
             categoryUrl E path cf = Returns u -> fails E (getRequest u) ->
             result (fetchCategoryFilteredProducts E path cf) = Returns []).
  { intros [|c path] cf u Hu Hfail; [reflexivity|].
    rewrite fetchCategoryFilteredProducts_request by discriminate.
    rewrite Hu; now apply settle_fails. }
  assert (Huri : forall path cf e,
             categoryUrl E path cf = Throws e ->
             result (fetchCategoryFilteredProducts E path cf) = Returns []).
  { intros [|c path] cf e He; [reflexivity|].
    rewrite fetchCategoryFilteredProducts_request by discriminate.
    now rewrite He. }
  assert (Hsent : forall (b : block) tags st msg u,
             fails E (getRequest u) ->
             exists e,
               (items <- (emit (Invoke st) ;;; settle E msg u) ;;
                ret {| cqTags := cqTags b;
                       content := rendered tags (gridChildren E items) |})
               = ([Invoke st; Fetch (getRequest u); ConsoleError msg e],
                  Returns {| cqTags := cqTags b;
                             content := header tags
                                        ++ [element "div" "cpl-grid" [emptyMessage]] |})).
  { intros b tags st msg u Hfail.
    destruct (settle_cases E msg u) as [(j & Hj & _)|(e & _ & ->)].
    - destruct Hfail as [Hf|Hf]; rewrite Hf in Hj; discriminate Hj.
    - exists e; reflexivity. }
  repeat match goal with |- _ /\ _ => split end; auto.
  - apply fetchLegacyProducts_returns.
  - apply fetchCategoryFilteredProducts_returns.
  - intros b folderHref Hres Hl Hfail.
    rewrite (decorate_returns E b folderHref Hres); unfold fetchProducts; rewrite Hl.
    rewrite fetchLegacyProducts_request by (intros ->; discriminate Hl).
    now apply Hsent.
  - intros b folderHref u Hres Hl Hne Hu Hfail.
    rewrite (decorate_returns E b folderHref Hres); unfold fetchProducts; rewrite Hl.
    rewrite fetchCategoryFilteredProducts_request by exact Hne.
    rewrite Hu; now apply Hsent.
  - intros b folderHref e Hres Hl Hne Hu.
    rewrite (decorate_returns E b folderHref Hres); unfold fetchProducts; rewrite Hl.
    rewrite fetchCategoryFilteredProducts_request by exact Hne.
    rewrite Hu; reflexivity.
  - intros b folderHref r Hres Hin Hfail.
    pose proof (decorate_run E b folderHref Hres) as Hrun; cbv zeta in Hrun.
    destruct Hrun as [[_ H]|[(e & H & _)|[(tl & j & Hj & H)|(tl & e & _ & H)]]];
      rewrite H in Hin |- *; unfold trace in Hin; cbn [fst In] in Hin.
    + destruct Hin as [Hin|[]]; discriminate Hin.
    + destruct Hin as [Hin|[Hin|[]]]; discriminate Hin.
    + destruct Hin as [Hin|[Hin|[]]]; [discriminate Hin|].
      destruct Hfail as [Hf|Hf]; congruence.
    + destruct Hin as [Hin|[Hin|[Hin|[]]]]; try discriminate Hin.
      exists e; rewrite <- Hin; reflexivity.
  - intros b folderHref Hres Hfail.
    apply (decorate_result _ _ _ [] Hres).
    unfold fetchProducts; destruct (isLegacyLuma3 folderHref);
      rewrite result_bind_emit; [now apply Hleg|].
    destruct (categoryUrl E folderHref (Some (resolveTags E b))) as [u|e] eqn:Hu;
      [now apply (Hcat _ _ u) | now apply (Huri _ _ e)].
Qed.

Lemma fetch_failure_renders_empty_state_witness :
  fails legacyOnlyPlatform
    (getRequest (categoryBaseUrl legacyOnlyPlatform ++ lit "_path=/content/cat/shirts"))
  /\ fetch legacyOnlyPlatform
       (getRequest (legacyBaseUrl legacyOnlyPlatform ++ lit "_path=/content/cat/shirts"))
     = respond [Some shoe]
         (getRequest (legacyBaseUrl legacyOnlyPlatform ++ lit "_path=/content/cat/shirts"))
  /\ (exists e,
        decorate legacyOnlyPlatform shirtsLink
        = ([Invoke CategoryFiltered;
            Fetch (getRequest (categoryBaseUrl legacyOnlyPlatform
                               ++ lit "_path=/content/cat/shirts"));
            ConsoleError categoryError e],
           Returns {| cqTags := None;
                      content := [element "div" "cpl-grid" [emptyMessage]] |}))
  /\ result (fetchLegacyProducts offlinePlatform (lit "/content/dam/luma3/men"))
     = Returns []
  /\ result (fetchCategoryFilteredProducts offlinePlatform (lit "/content/cat/shirts")
               (Some (VStr [55357%N])))
     = Returns [].
Proof.
  assert (Hdown : fails legacyOnlyPlatform
                    (getRequest (categoryBaseUrl legacyOnlyPlatform
                                 ++ lit "_path=/content/cat/shirts")))
    by (left; reflexivity).
  assert (Hoff : forall r, fails offlinePlatform r) by (intros r; now left).
  split; [exact Hdown|]; split; [reflexivity|]; split; [|split].
  - destruct (fetch_failure_renders_empty_state legacyOnlyPlatform)
      as (_ & _ & _ & _ & _ & _ & Hsent & _).
    exact (Hsent shirtsLink (lit "/content/cat/shirts")
             (categoryBaseUrl legacyOnlyPlatform ++ lit "_path=/content/cat/shirts")
             eq_refl eq_refl ltac:(discriminate) eq_refl Hdown).
  - apply (proj1 (fetch_failure_renders_empty_state offlinePlatform)), Hoff.
  - apply (proj1 (proj2 (proj2 (fetch_failure_renders_empty_state offlinePlatform)))
             _ _ URIError); reflexivity.
Defined.

(** ** The records of a response *)

Lemma itemsOf_path (j : option json_t) :
  itemsOf j = match itemsPath j with Some l => l | None => [] end.
Proof.
  destruct j as [[[[[[[l|]]|]]|]]|]; reflexivity.
Qed.

(** C9.  The records of a parsed response are those at
    [data.productsModelList.items]; when a part of the path is absent the
    sequence is empty, and no error is raised.  Both strategies return
    that sequence, and when the fetched sequence is empty [decorate] puts
    one element alone in the grid, the paragraph [p.cpl-empty] whose text
    is [No products found.], and no card. *)
Theorem items_path_or_empty (E : platform) :
  (forall j l, itemsPath j = Some l -> itemsOf j = l)
  /\ (forall j, itemsPath j = None -> itemsOf j = [])
  /\ (forall path j,
        path <> [] ->
        fetch E (getRequest (legacyBaseUrl E ++ lit "_path=" ++ path)) = Some (Json j) ->
        result (fetchLegacyProducts E path) = Returns (itemsOf j))
  /\ (forall path categoryFilter u j,
        path <> [] ->
        categoryUrl E path categoryFilter = Returns u ->
        fetch E (getRequest u) = Some (Json j) ->
        result (fetchCategoryFilteredProducts E path categoryFilter)
        = Returns (itemsOf j))
  /\ (forall b folderHref,
        resolveFolder E b = Returns folderHref ->
        result (fetchProducts E folderHref (resolveTags E b)) = Returns [] ->
        result (decorate E b)
        = Returns {| cqTags := cqTags b;
                     content :=
                       header (resolveTags E b)
                       ++ [element "div" "cpl-grid"
                             [element "p" "cpl-empty"
                                [Text (lit "No products found.")]]] |})
  /\ textContent emptyMessage = lit "No products found."
  /\ (forall item isAuthor, buildCard E item isAuthor <> emptyMessage).
Proof.
  split; [|split; [|split; [|split; [|split; [|split]]]]];
    [| | | | |reflexivity|intros item isAuthor; discriminate].
  - intros j l H; now rewrite itemsOf_path, H.
  - intros j H; now rewrite itemsOf_path, H.
  - intros path j Hne Hj.
    rewrite fetchLegacyProducts_request by exact Hne.
    unfold settle; now rewrite Hj.
  - intros path cf u j Hne Hu Hj.
    rewrite fetchCategoryFilteredProducts_request by exact Hne.
    rewrite Hu; unfold settle; now rewrite Hj.
  - intros b folderHref Hres Hl.
    exact (decorate_result _ _ _ _ Hres Hl).
Qed.

Lemma items_path_or_empty_witness :
  itemsOf (Some {| data := Some {| productsModelList :=
                     Some {| items := Some [Some shoe] |} |} |}) = [Some shoe]
  /\ itemsOf (Some {| data := Some {| productsModelList := None |} |}) = []
  /\ result (fetchLegacyProducts noDataPlatform (lit "/content/dam/luma3/men"))
     = Returns []
  /\ result (fetchCategoryFilteredProducts nullItemPlatform
               (lit "/content/cat/shirts") (Some (VStr (lit "red"))))
     = Returns [None]
  /\ result (decorate emptyShop taggedShirts)
     = Returns {| cqTags := Some (lit "red, blue");
                  content := [element "div" "cpl-tags" [chip (lit "red"); chip (lit "blue")];
                              element "div" "cpl-grid"
                                [element "p" "cpl-empty"
                                   [Text (lit "No products found.")]]] |}.
Proof.
  split; [|split; [|split; [|split]]].
  - apply (proj1 (items_path_or_empty emptyShop)); reflexivity.
  - apply (proj1 (proj2 (items_path_or_empty emptyShop))); reflexivity.
  - apply (proj1 (proj2 (proj2 (items_path_or_empty noDataPlatform)))
             (lit "/content/dam/luma3/men") (Some {| data := None |}));
      [discriminate | reflexivity].
  - apply (proj1 (proj2 (proj2 (proj2 (items_path_or_empty nullItemPlatform))))
             (lit "/content/cat/shirts") (Some (VStr (lit "red")))
             (categoryBaseUrl nullItemPlatform
              ++ lit "_path=/content/cat/shirts&category=red")
             (Some {| data := Some {| productsModelList :=
                        Some {| items := Some [None] |} |} |}));
      [discriminate | reflexivity | reflexivity].
  - apply (proj1 (proj2 (proj2 (proj2 (proj2 (items_path_or_empty emptyShop)))))
             taggedShirts (lit "/content/cat/shirts")); reflexivity.
Defined.

(** ** An empty folder reference *)

Lemma resolveFolder_empty (E : platform) (b : block) :
  authoredFolder b (readBlockConfig E b) = VStr [] -> resolveFolder E b = Returns [].
Proof. unfold resolveFolder; intros ->; reflexivity. Qed.

(** C10.  With no folder reference (none authored, or an empty one) each
    strategy returns the empty sequence at once, with no request and no
    log; [decorate] then invokes the category-filtered strategy, issues no
    request and renders the empty-state message. *)
Theorem empty_folder_issues_no_request (E : platform) (b : block) :
  authoredFolder b (readBlockConfig E b) = VStr [] ->
  fetchLegacyProducts E [] = ([], Returns [])
  /\ (forall categoryFilter,
        fetchCategoryFilteredProducts E [] categoryFilter = ([], Returns []))
  /\ decorate E b
     = ([Invoke CategoryFiltered],
        Returns {| cqTags := cqTags b;
                   content := header (resolveTags E b)
                              ++ [element "div" "cpl-grid" [emptyMessage]] |}).
Proof.
  intros H; split; [reflexivity|]; split; [reflexivity|].
  rewrite (decorate_returns _ _ _ (resolveFolder_empty _ _ H)); reflexivity.
Qed.

Lemma empty_folder_issues_no_request_witness :
  authoredFolder (emptyBlock None) (readBlockConfig taggedPlatform (emptyBlock None))
  = VStr []
  /\ decorate taggedPlatform (emptyBlock None)
     = ([Invoke CategoryFiltered],
        Returns {| cqTags := None;
                   content := [element "div" "cpl-tags" [chip (lit "red")];
                               element "div" "cpl-grid" [emptyMessage]] |}).
Proof.
  split; [reflexivity|].
  exact (proj2 (proj2 (empty_folder_issues_no_request taggedPlatform (emptyBlock None)
                         eq_refl))).
Defined.

(** ** The product identifier *)

(** C5.  The product identifier of a record is its [sku] when that is not
    empty, else its [id], else the empty string; the card carries the
    click listener exactly when the identifier is not empty, so a record
    with neither [sku] nor [id] gives a card with no listener and no
    pointer cursor. *)
Theorem productId_sku_then_id (E : platform) (item : Item.t) (isAuthor : bool) :
  productId item
  = match Item.sku item with
    | Some (c :: s) => c :: s
    | _ => match Item.id item with Some i => i | None => [] end
    end
  /\ listenersOf (buildCard E (Some item) isAuthor)
     = match productId item with
       | [] => []
       | _ :: _ => [NavigateToProduct isAuthor (productId item)]
       end
  /\ (Item.sku item = None -> Item.id item = None ->
      listenersOf (buildCard E (Some item) isAuthor) = []
      /\ cursorOf (buildCard E (Some item) isAuthor) = [])
  /\ listenersOf (buildCard E None isAuthor) = [].
Proof.
  split; [|split; [|split]].
  - unfold productId, strOr.
    destruct (Item.sku item) as [[|c s]|]; simpl;
      destruct (Item.id item) as [[|d i]|]; reflexivity.
  - unfold buildCard, listenersOf; destruct (productId item); reflexivity.
  - intros Hsku Hid; unfold buildCard, listenersOf, cursorOf, productId.
    rewrite Hsku, Hid; split; reflexivity.
  - reflexivity.
Qed.

Lemma productId_sku_then_id_witness :
  Item.sku anonymous = None
  /\ Item.id anonymous = None
  /\ listenersOf (buildCard offlinePlatform (Some anonymous) false) = []
  /\ cursorOf (buildCard offlinePlatform (Some anonymous) false) = []
  /\ listenersOf (buildCard offlinePlatform (Some shoe) false)
     = [NavigateToProduct false (lit "M1")].
Proof.
  destruct (productId_sku_then_id offlinePlatform anonymous false) as (_ & _ & H & _).
  destruct (H eq_refl eq_refl) as [Hl Hc].
  split; [reflexivity|]; split; [reflexivity|].
  split; [exact Hl|]; split; [exact Hc|].
  exact (proj1 (proj2 (productId_sku_then_id offlinePlatform shoe false))).
Defined.

(** ** The category label *)

Lemma matchPrefixCI_app (p q rest : jsstring) :
  List.map Str.canonicalize q = List.map Str.canonicalize p ->
  Str.matchPrefixCI p (q ++ rest) = Some rest.
Proof.
  revert q; induction p as [|d p IH]; intros [|c q] H; try discriminate H.
  - reflexivity.
  - simpl in *; injection H as Hc Hq.
    rewrite Hc, N.eqb_refl; now apply IH.
Qed.

Lemma categoryText_join (item : Item.t) :
  categoryText item = Str.join (lit ", ") (categoriesOf item).
Proof.
  unfold categoryText, categoriesOf.
  destruct (Item.category item) as [[|x l]|]; reflexivity.
Qed.

(** The text that [toUpperCase] returns is made of the uppercase forms of
    the code points of its argument: what no uppercase form holds, it
    does not hold. *)
Lemma toUpperCase_within (upper : N -> list N) (L : N -> bool) (s : jsstring) :
  (forall cp,
     Forall (fun c => L c = false) (Str.fromCodePoints (Str.upperCodePoint upper cp))) ->
  Forall (fun c => L c = false) (Str.toUpperCase upper s).
Proof.
  intros H; unfold Str.toUpperCase.
  induction (Str.toCodePoints s) as [|cp cps IH]; [constructor|].
  cbn [flat_map]; unfold Str.fromCodePoints in *.
  rewrite flat_map_app; apply Forall_app; split; [apply H | exact IH].
Qed.

(** C6 as stated fails, twice.  The prefix is removed once, and what
    follows it may begin with the prefix again: the label of
    [luma:luma:men] begins with [LUMA:].  And uppercasing leaves a
    lowercase letter that has no uppercase form as it is: the label of the
    category made of the letter kra is that letter. *)
Lemma label_keeps_prefix_and_small_letter :
  (categoryLabel offlinePlatform twicePrefixed = lit "LUMA:MEN"
   /\ hasPrefixCI (lit "luma:") (categoryLabel offlinePlatform twicePrefixed) = true)
  /\ (unicodeUpper offlinePlatform kra = [kra]
      /\ categoryLabel offlinePlatform smallKra = [kra]
      /\ existsb isSmallLetter (categoryLabel offlinePlatform smallKra) = true).
Proof. repeat split. Qed.

(** C6, amended.  The label is the categories joined with [", "], one
    leading [luma:] or [lumaproducts:] removed whatever its case, every
    slash replaced by [" / "], uppercased.  It holds no lowercase ASCII
    letter, provided the engine's table of uppercase forms yields none
    for a character outside ASCII; a character outside ASCII is replaced
    by what that table gives for it, so the label holds no letter of a
    class that no uppercase form holds.  The prefix is removed once: of a
    text that begins with a prefix the label is that of the rest,
    whatever the rest begins with. *)
Theorem category_label_format (E : platform) (item : Item.t) :
  categoryLabel E item = labelOf (unicodeUpper E) (categoriesOf item)
  /\ ((forall cp, (128 <= cp)%N ->
         Forall (fun c => Str.isAsciiLower c = false) (unicodeUpper E cp)) ->
      Forall (fun c => Str.isAsciiLower c = false) (categoryLabel E item))
  /\ (forall L : N -> bool,
        (forall cp,
           Forall (fun c => L c = false)
             (Str.fromCodePoints (Str.upperCodePoint (unicodeUpper E) cp))) ->
        Forall (fun c => L c = false) (categoryLabel E item))
  /\ (forall p rest,
        List.map Str.canonicalize p = lit "LUMA:" ->
        stripPrefix (p ++ rest) = rest)
  /\ (forall p rest,
        List.map Str.canonicalize p = lit "LUMAPRODUCTS:" ->
        stripPrefix (p ++ rest) = rest)
  /\ (forall text,
        hasPrefixCI (lit "luma:") text = false ->
        hasPrefixCI (lit "lumaproducts:") text = false ->
        stripPrefix text = text).
Proof.
  split; [|split; [|split; [|split; [|split]]]].
  - unfold categoryLabel, labelOf.
    rewrite StrFacts.replaceAllSlash_split, categoryText_join.
    unfold stripPrefix, Str.replaceLeadingCI.
    destruct (Str.matchPrefixCI (lit "luma:") _); [reflexivity|].
    destruct (Str.matchPrefixCI (lit "lumaproducts:") _); reflexivity.
  - intros Hupper; apply StrFacts.toUpperCase_not_lower, Hupper.
  - intros L HL; now apply toUpperCase_within.
  - intros p rest Hp; unfold stripPrefix.
    now rewrite (matchPrefixCI_app (lit "luma:") p rest Hp).
  - intros p rest Hp; unfold stripPrefix.
    rewrite (matchPrefixCI_app (lit "lumaproducts:") p rest Hp).
    destruct p as [|c0 [|c1 [|c2 [|c3 [|c4 p]]]]]; try discriminate Hp.
    injection Hp as H0 H1 H2 H3 H4 _.
    cbn [app Str.matchPrefixCI lit list_ascii_of_string List.map].
    rewrite H0, H1, H2, H3, H4; reflexivity.
  - intros text H1 H2; unfold stripPrefix, hasPrefixCI in *.
    destruct (Str.matchPrefixCI (lit "luma:") text); [discriminate H1|].
    destruct (Str.matchPrefixCI (lit "lumaproducts:") text); [discriminate H2|].
    reflexivity.
Qed.

Lemma category_label_format_witness :
  (forall cp, (128 <= cp)%N ->
     Forall (fun c => Str.isAsciiLower c = false)
       (unicodeUpper offlinePlatform cp))
  /\ categoryLabel offlinePlatform menShoes
     = lit "MEN / SHOES, LUMA:SALE"
  /\ Forall (fun c => Str.isAsciiLower c = false) (categoryLabel offlinePlatform menShoes)
  /\ stripPrefix (lit "LumaProducts:" ++ lit "luma:men") = lit "luma:men".
Proof.
  assert (H : forall cp, (128 <= cp)%N ->
            Forall (fun c => Str.isAsciiLower c = false)
              (unicodeUpper offlinePlatform cp)).
  { intros cp Hcp; constructor; [|constructor].
    unfold Str.isAsciiLower; apply andb_false_iff; right.
    apply N.leb_gt; lia. }
  destruct (category_label_format offlinePlatform menShoes)
    as (Hlabel & Hlower & _ & _ & Hstrip & _).
  split; [exact H|]; split; [|split].
  - rewrite Hlabel; reflexivity.
  - exact (Hlower H).
  - apply Hstrip; reflexivity.
Defined.

(** ** The tag header *)

(** The header is decided on the tags as authored: none for the empty
    string and the empty array, else the wrapper of the chips; the chips
    are the trimmed entries that are not empty, in the order of the input. *)
Lemma header_cases (tags : value) :
  header tags
  = match tags with
    | VStr [] | VArr [] => []
    | _ => [element "div" "cpl-tags" (List.map chip (chipTexts tags))]
    end.
Proof. destruct tags as [[|c s]|[|t l]]; reflexivity. Qed.

Lemma chipTexts_order (tags : value) :
  chipTexts tags
  = filter (fun t => negb (Str.isEmpty t)) (List.map Str.trim (tagList tags))
  /\ Forall (fun t => t <> []) (chipTexts tags).
Proof.
  split; [reflexivity|].
  unfold chipTexts; apply Forall_forall; intros t Ht.
  apply filter_In in Ht as [_ Ht]; now destruct t.
Qed.

(** C7 fails on tags that hold only blank entries: [renderHeader] tests
    the tags as authored, finds them not empty and appends the wrapper,
    with no chip in it. *)
Theorem blank_tags_emit_empty_header :
  chipTexts (VStr blankTags) = []
  /\ renderHeader (emptyBlock None) (VStr blankTags)
     = {| cqTags := None; content := [element "div" "cpl-tags" []] |}
  /\ result (decorate offlinePlatform (emptyBlock (Some blankTags)))
     = Returns {| cqTags := Some blankTags;
                  content := [element "div" "cpl-tags" [];
                              element "div" "cpl-grid" [emptyMessage]] |}.
Proof. repeat split. Qed.

(** ** The category-filtered strategy *)

Lemma fetchCategoryFilteredProducts_no_invoke
  (E : platform) (path : jsstring) (categoryFilter : option value) :
  Forall (fun ev => isInvoke ev = false)
    (trace (fetchCategoryFilteredProducts E path categoryFilter)).
Proof.
  destruct path as [|c path]; [constructor|].
  rewrite fetchCategoryFilteredProducts_request by discriminate.
  destruct (categoryUrl _ _ _) as [u|e]; [|repeat constructor].
  destruct (settle_trace E categoryError u) as (log & -> & Hlog).
  constructor; [reflexivity|].
  eapply Forall_impl; [|exact Hlog]; now intros ev [e ->].
Qed.

Lemma categoryUrl_plain (E : platform) (path : jsstring) (tags : value) :
  truthy tags = false ->
  categoryUrl E path (Some tags) = Returns (categoryBaseUrl E ++ lit "_path=" ++ path).
Proof. unfold categoryUrl; now intros ->. Qed.

Lemma categoryUrl_category (E : platform) (path : jsstring) (tags : value) (e : jsstring) :
  truthy tags = true ->
  Str.encodeURIComponent (categoryParam tags) = Returns e ->
  categoryUrl E path (Some tags)
  = Returns (categoryBaseUrl E ++ lit "_path=" ++ path ++ lit "&category=" ++ e).
Proof.
  unfold categoryUrl; intros -> ->; simpl; now rewrite <- !app_assoc.
Qed.

Lemma chipTexts_truthy (tags : value) : chipTexts tags <> [] -> truthy tags = true.
Proof. destruct tags as [[|c s]|l]; [intros H; now elim H | reflexivity..]. Qed.

(** C2 as stated fails: the tags travel as authored, the space after the
    comma included, so the URL holds [category=red%2C%20blue] and not
    [category=red%2Cblue]; the parameter read back and split on commas is
    [red] and [ blue], which is not the trimmed tag list. *)
Lemma red_blue_sent_as_authored :
  trace (decorate shirtsPlatform (emptyBlock None))
  = [Invoke CategoryFiltered; Fetch (getRequest shirtsUrl)]
  /\ Str.includes shirtsUrl (lit "category=red%2Cblue") = false
  /\ Str.includes shirtsUrl (lit "category=red%2C%20blue") = true
  /\ option_map (Str.split 44) (percentDecode (lit "red%2C%20blue"))
     = Some [lit "red"; lit " blue"]
  /\ chipTexts (resolveTags shirtsPlatform (emptyBlock None)) = [lit "red"; lit "blue"].
Proof. repeat split. Qed.

(** C2, amended.  For a folder path that is not a legacy one, [decorate]
    invokes the category-filtered strategy and never the legacy one.  For
    a path that is not empty the request URL is the base, [_path=] and the
    path, followed by nothing when the tags are the empty string, and by
    [&category=] and the encoded tags when at least one tag is present,
    that is when some entry of the tags is not blank.  The tags are
    encoded as authored, not trimmed: a string [s] as
    [encodeURIComponent(s)], an array as its entries joined with commas.
    The encoded text holds unreserved characters and percent escapes
    only; decoding it gives the authored text back, and splitting that on
    commas, trimming the pieces and dropping the empty ones gives the
    trimmed tag list (for an array, when no entry holds a comma, the
    split gives the array itself). *)
Theorem category_parameter_as_authored
  (E : platform) (b : block) (folderHref : jsstring) :
  resolveFolder E b = Returns folderHref ->
  isLegacyLuma3 folderHref = false ->
  (exists log,
     trace (decorate E b) = Invoke CategoryFiltered :: log
     /\ Forall (fun ev => isInvoke ev = false) log)
  /\ (folderHref <> [] -> resolveTags E b = VStr [] ->
      exists log,
        trace (decorate E b)
        = Invoke CategoryFiltered
          :: Fetch (getRequest (categoryBaseUrl E ++ lit "_path=" ++ folderHref))
          :: log
        /\ Forall (fun ev => exists e, ev = ConsoleError categoryError e) log)
  /\ (forall s e,
        folderHref <> [] ->
        resolveTags E b = VStr s ->
        chipTexts (VStr s) <> [] ->
        Str.encodeURIComponent s = Returns e ->
        (exists log,
           trace (decorate E b)
           = Invoke CategoryFiltered
             :: Fetch (getRequest (categoryBaseUrl E ++ lit "_path=" ++ folderHref
                                   ++ lit "&category=" ++ e))
             :: log
           /\ Forall (fun ev => exists e, ev = ConsoleError categoryError e) log)
        /\ Forall (fun c => urlSafe c = true) e
        /\ (wellFormed s ->
            percentDecode e = Some s
            /\ option_map
                 (fun p => filter (fun t => negb (Str.isEmpty t))
                             (List.map Str.trim (Str.split 44 p)))
                 (percentDecode e)
               = Some (chipTexts (VStr s))))
  /\ (forall l e,
        folderHref <> [] ->
        resolveTags E b = VArr l ->
        chipTexts (VArr l) <> [] ->
        Str.encodeURIComponent (Str.join (lit ",") l) = Returns e ->
        (exists log,
           trace (decorate E b)
           = Invoke CategoryFiltered
             :: Fetch (getRequest (categoryBaseUrl E ++ lit "_path=" ++ folderHref
                                   ++ lit "&category=" ++ e))
             :: log
           /\ Forall (fun ev => exists e, ev = ConsoleError categoryError e) log)
        /\ Forall (fun c => urlSafe c = true) e
        /\ (wellFormed (Str.join (lit ",") l) ->
            percentDecode e = Some (Str.join (lit ",") l)
            /\ ((forall t, In t l -> ~ In 44%N t) ->
                option_map (Str.split 44) (percentDecode e) = Some l
                /\ option_map
                     (fun p => filter (fun t => negb (Str.isEmpty t))
                                 (List.map Str.trim (Str.split 44 p)))
                     (percentDecode e)
                   = Some (chipTexts (VArr l))))).
Proof.
  intros Hres Hleg.
  assert (Htrace : trace (decorate E b)
                   = Invoke CategoryFiltered
                     :: trace (fetchCategoryFilteredProducts E folderHref
                                 (Some (resolveTags E b)))).
  { rewrite (decorate_trace _ _ _ Hres); unfold fetchProducts.
    now rewrite Hleg, trace_bind_emit. }
  assert (Hsent : forall tags e,
            folderHref <> [] -> resolveTags E b = tags -> chipTexts tags <> [] ->
            Str.encodeURIComponent (categoryParam tags) = Returns e ->
            exists log,
              trace (decorate E b)
              = Invoke CategoryFiltered
                :: Fetch (getRequest (categoryBaseUrl E ++ lit "_path=" ++ folderHref
                                      ++ lit "&category=" ++ e))
                :: log
              /\ Forall (fun ev => exists e, ev = ConsoleError categoryError e) log).
  { intros tags e Hne Htags Hchips He; rewrite Htrace, Htags.
    rewrite fetchCategoryFilteredProducts_request by exact Hne.
    rewrite (categoryUrl_category _ _ _ _ (chipTexts_truthy _ Hchips) He).
    destruct (settle_trace E categoryError
                (categoryBaseUrl E ++ lit "_path=" ++ folderHref
                 ++ lit "&category=" ++ e))
      as (log & -> & Hlog).
    now exists log. }
  split; [|split; [|split]].
  - rewrite Htrace; eexists; split; [reflexivity|].
    apply fetchCategoryFilteredProducts_no_invoke.
  - intros Hne Htags; rewrite Htrace, Htags.
    rewrite fetchCategoryFilteredProducts_request by exact Hne.
    rewrite (categoryUrl_plain _ _ (VStr []) eq_refl).
    destruct (settle_trace E categoryError
                (categoryBaseUrl E ++ lit "_path=" ++ folderHref))
      as (log & -> & Hlog).
    now exists log.
  - intros s e Hne Htags Hchips He.
    split; [exact (Hsent (VStr s) e Hne Htags Hchips He)|].
    split; [exact (StrFacts.encodeURIComponent_safe _ _ He)|].
    intros Hwf.
    pose proof (UriFacts.percentDecode_encodeURIComponent _ _ Hwf He) as Hdec.
    split; [exact Hdec | now rewrite Hdec].
  - intros l e Hne Htags Hchips He.
    split; [exact (Hsent (VArr l) e Hne Htags Hchips He)|].
    split; [exact (StrFacts.encodeURIComponent_safe _ _ He)|].
    intros Hwf.
    pose proof (UriFacts.percentDecode_encodeURIComponent _ _ Hwf He) as Hdec.
    split; [exact Hdec|].
    intros Hfree; rewrite Hdec; cbn [option_map].
    assert (Hl : l <> []) by (intros ->; now apply Hchips).
    pose proof (StrFacts.split_join 44 l Hl Hfree) as Hs.
    change [44%N] with (lit ",") in Hs; now rewrite Hs.
Qed.

Lemma category_parameter_as_authored_witness :
  resolveFolder shirtsPlatform (emptyBlock None) = Returns (lit "/content/cat/shirts")
  /\ isLegacyLuma3 (lit "/content/cat/shirts") = false
  /\ resolveTags shirtsPlatform (emptyBlock None) = VStr (lit "red, blue")
  /\ chipTexts (VStr (lit "red, blue")) <> []
  /\ Str.encodeURIComponent (lit "red, blue") = Returns (lit "red%2C%20blue")
  /\ (exists log,
        trace (decorate shirtsPlatform (emptyBlock None))
        = Invoke CategoryFiltered
          :: Fetch (getRequest
                      (categoryBaseUrl shirtsPlatform ++ lit "_path=/content/cat/shirts"
                       ++ lit "&category=" ++ lit "red%2C%20blue"))
          :: log
        /\ Forall (fun ev => exists e, ev = ConsoleError categoryError e) log)
  /\ resolveTags paddedPlatform (emptyBlock None) = VStr (lit " red ")
  /\ (exists log,
        trace (decorate paddedPlatform (emptyBlock None))
        = Invoke CategoryFiltered
          :: Fetch (getRequest
                      (categoryBaseUrl paddedPlatform ++ lit "_path=/content/cat/shirts"
                       ++ lit "&category=" ++ lit "%20red%20"))
          :: log
        /\ Forall (fun ev => exists e, ev = ConsoleError categoryError e) log).
Proof.
  assert (Hchips : chipTexts (VStr (lit "red, blue")) <> []) by discriminate.
  assert (Hpad : chipTexts (VStr (lit " red ")) <> []) by discriminate.
  split; [reflexivity|]; split; [reflexivity|]; split; [reflexivity|].
  split; [exact Hchips|]; split; [reflexivity|]; split; [|split; [reflexivity|]].
  - destruct (category_parameter_as_authored shirtsPlatform (emptyBlock None)
                (lit "/content/cat/shirts") eq_refl eq_refl)
      as (_ & _ & Hstr & _).
    exact (proj1 (Hstr (lit "red, blue") (lit "red%2C%20blue")
                    ltac:(discriminate) eq_refl Hchips eq_refl)).
  - destruct (category_parameter_as_authored paddedPlatform (emptyBlock None)
                (lit "/content/cat/shirts") eq_refl eq_refl)
      as (_ & _ & Hstr & _).
    exact (proj1 (Hstr (lit " red ") (lit "%20red%20")
                    ltac:(discriminate) eq_refl Hpad eq_refl)).
Defined.

(** ** The folder reference *)

(** C4 as stated fails: an absolute URL whose scheme does not begin with
    [http] is not parsed; it keeps its scheme and host. *)
Lemma ftp_reference_keeps_host :
  pathname offlinePlatform ftpReference = Some (lit "/dam/a.html")
  /\ resolveFolder offlinePlatform (linkBlock None ftpReference (lit "a"))
     = Returns (lit "ftp://example.com/dam/a")
  /\ Str.startsWith (lit "ftp://example.com/dam/a") (lit "ftp://example.com") = true.
Proof. repeat split. Qed.

Lemma removeHtml_suffix (r : jsstring) :
  removeHtml (VStr (r ++ lit ".html")) = Returns r.
Proof.
  unfold removeHtml.
  rewrite StrFacts.endsWith_app, StrFacts.replaceHtmlSuffix_app.
  now destruct r.
Qed.

Lemma removeHtml_other (s : jsstring) :
  Str.endsWith s (lit ".html") = false -> removeHtml (VStr s) = Returns s.
Proof. unfold removeHtml; intros ->; now rewrite andb_false_r. Qed.

(** C4, amended.  A folder reference that begins with [http] and parses
    as a URL is replaced by the path component of the URL; when the parser
    throws, the reference stays as authored; a reference that does not
    begin with [http] is not parsed.  A trailing [.html] is then removed,
    once: of [r.html] the result is [r], whatever [r] ends with; a
    reference without the suffix is unchanged. *)
Theorem folder_reference_resolution (E : platform) (b : block) (s : jsstring) :
  authoredFolder b (readBlockConfig E b) = VStr s ->
  (forall p,
     Str.startsWith s (lit "http") = true -> pathname E s = Some p ->
     resolveFolder E b = removeHtml (VStr p))
  /\ (Str.startsWith s (lit "http") = true -> pathname E s = None ->
      resolveFolder E b = removeHtml (VStr s))
  /\ (Str.startsWith s (lit "http") = false ->
      resolveFolder E b = removeHtml (VStr s))
  /\ (forall r, removeHtml (VStr (r ++ lit ".html")) = Returns r)
  /\ (forall t, Str.endsWith t (lit ".html") = false -> removeHtml (VStr t) = Returns t).
Proof.
  intros Hs; unfold resolveFolder; rewrite Hs; unfold normalizeFolder.
  split; [|split; [|split; [|split]]].
  - intros p Hhttp Hp; rewrite Hhttp, Hp.
    now destruct s.
  - intros Hhttp Hp; rewrite Hhttp, Hp.
    now destruct s.
  - intros Hhttp; rewrite Hhttp, andb_false_r; reflexivity.
  - apply removeHtml_suffix.
  - apply removeHtml_other.
Qed.

Lemma folder_reference_resolution_witness :
  authoredFolder (linkBlock None menReference (lit "Men"))
    (readBlockConfig offlinePlatform
       (linkBlock None menReference (lit "Men")))
  = VStr menReference
  /\ resolveFolder offlinePlatform
       (linkBlock None menReference (lit "Men"))
     = Returns (lit "/content/dam/luma3/men-products")
  /\ resolveFolder offlinePlatform
       (linkBlock None (lit "http") (lit "Men"))
     = Returns (lit "http")
  /\ resolveFolder offlinePlatform
       (linkBlock None (lit "/content/cat/shirts.html.html") (lit "Shirts"))
     = Returns (lit "/content/cat/shirts.html").
Proof.
  split; [reflexivity|]; split; [|split].
  - rewrite (proj1 (folder_reference_resolution offlinePlatform
                      (linkBlock None menReference (lit "Men")) menReference eq_refl)
               (lit "/content/dam/luma3/men-products.html") eq_refl eq_refl).
    reflexivity.
  - rewrite (proj1 (proj2 (folder_reference_resolution
                             offlinePlatform
                             (linkBlock None (lit "http") (lit "Men"))
                             (lit "http") eq_refl))
               eq_refl eq_refl).
    reflexivity.
  - rewrite (proj1 (proj2 (proj2 (folder_reference_resolution
                             offlinePlatform
                             (linkBlock None (lit "/content/cat/shirts.html.html")
                                (lit "Shirts"))
                             (lit "/content/cat/shirts.html.html") eq_refl)))
               eq_refl).
    exact (proj1 (proj2 (proj2 (proj2 (folder_reference_resolution
                             offlinePlatform
                             (linkBlock None (lit "/content/cat/shirts.html.html")
                                (lit "Shirts"))
                             (lit "/content/cat/shirts.html.html") eq_refl))))
             (lit "/content/cat/shirts.html")).
Defined.

(** * Further properties *)

Ltac not_in := let H := fresh in intro H; vm_compute in H; intuition discriminate.

(** ** The address a click opens *)

Lemma lastIndexOf_absent (c : N) (s : jsstring) :
  ~ In c s -> Str.lastIndexOf c s = None.
Proof.
  induction s as [|d s IH]; intros H; [reflexivity|].
  simpl; rewrite IH by (intros Hin; apply H; now right).
  destruct (N.eqb_spec d c) as [->|]; [exfalso; apply H; now left | reflexivity].
Qed.

Lemma lastIndexOf_app (c : N) (dir seg : jsstring) :
  ~ In c seg -> Str.lastIndexOf c (dir ++ c :: seg) = Some (length dir).
Proof.
  intros H; induction dir as [|d dir IH]; simpl.
  - now rewrite (lastIndexOf_absent c seg H), N.eqb_refl.
  - now rewrite IH.
Qed.

Lemma beforeLastSlash_app (dir seg : jsstring) :
  ~ In 47%N seg -> Str.beforeLastSlash (dir ++ 47%N :: seg) = dir.
Proof.
  intros H; unfold Str.beforeLastSlash; rewrite (lastIndexOf_app 47 dir seg H).
  rewrite firstn_app, firstn_all, Nat.sub_diag; simpl; apply app_nil_r.
Qed.

Lemma buildCard_listeners (E : platform) (item : Item.t) (isAuthor : bool) :
  productId item <> [] ->
  listenersOf (buildCard E (Some item) isAuthor)
  = [NavigateToProduct isAuthor (productId item)].
Proof.
  intros Hne; unfold buildCard, listenersOf.
  destruct (productId item); [congruence | reflexivity].
Qed.

(** X1.  A click on a card whose record has a product identifier opens
    the product page beside the current page: the current path up to its
    last slash, then [/product] ([/product.html] on author), then
    [?productId=] and the encoded identifier.  A current path with no slash
    gives an empty base.  The encoded identifier holds URL-safe characters
    only, and for a well-formed identifier it decodes to the identifier. *)
Theorem click_opens_sibling_product
  (E : platform) (item : Item.t) (isAuthor : bool) (dir seg e : jsstring) :
  productId item <> [] ->
  Str.encodeURIComponent (productId item) = Returns e ->
  ~ In 47%N seg ->
  List.map (fun h => click h (dir ++ 47%N :: seg))
    (listenersOf (buildCard E (Some item) isAuthor))
  = [Returns (dir ++ (if isAuthor then lit "/product.html" else lit "/product")
              ++ lit "?productId=" ++ e)]
  /\ List.map (fun h => click h seg) (listenersOf (buildCard E (Some item) isAuthor))
     = [Returns ((if isAuthor then lit "/product.html" else lit "/product")
                 ++ lit "?productId=" ++ e)]
  /\ Forall (fun c => urlSafe c = true) e
  /\ (wellFormed (productId item) -> percentDecode e = Some (productId item)).
Proof.
  intros Hne He Hseg; rewrite (buildCard_listeners E item isAuthor Hne).
  cbn [List.map]; split; [|split; [|split]].
  - unfold click; rewrite (beforeLastSlash_app dir seg Hseg), He; simpl.
    destruct isAuthor; now rewrite <- !app_assoc.
  - unfold click, Str.beforeLastSlash.
    rewrite (lastIndexOf_absent 47 seg Hseg), He; destruct isAuthor; reflexivity.
  - exact (StrFacts.encodeURIComponent_safe _ _ He).
  - intros Hwf; exact (UriFacts.percentDecode_encodeURIComponent _ _ Hwf He).
Qed.

Lemma click_opens_sibling_product_witness :
  productId shoe <> []
  /\ Str.encodeURIComponent (productId shoe) = Returns (lit "M1")
  /\ ~ In 47%N (lit "men-products")
  /\ List.map (fun h => click h (lit "/us/en/men-products"))
       (listenersOf (buildCard offlinePlatform (Some shoe) false))
     = [Returns (lit "/us/en/product?productId=M1")].
Proof.
  assert (H1 : productId shoe <> []) by discriminate.
  assert (H2 : Str.encodeURIComponent (productId shoe) = Returns (lit "M1"))
    by reflexivity.
  assert (H3 : ~ In 47%N (lit "men-products")) by not_in.
  split; [exact H1|]; split; [exact H2|]; split; [exact H3|].
  exact (proj1 (click_opens_sibling_product offlinePlatform shoe false
                  (lit "/us/en") (lit "men-products") (lit "M1") H1 H2 H3)).
Defined.

(** ** Text that needs no encoding *)

Lemma encodeURIComponent_unreserved (s : jsstring) :
  forallb Str.isUnreserved s = true -> Str.encodeURIComponent s = Returns s.
Proof.
  induction s as [|c s IH]; intros H; [reflexivity|].
  simpl in H; apply andb_true_iff in H as [Hc Hs].
  rewrite UriFacts.encodeURIComponent_cons, Hc, (IH Hs); reflexivity.
Qed.

(** X2.  Text made of unreserved characters only (letters, digits and
    the marks that [encodeURIComponent] leaves alone) is passed on as it is,
    both as the product identifier in the address a click opens and as the
    category parameter of the request. *)
Theorem unreserved_text_is_sent_unchanged
  (E : platform) (isAuthor : bool) (s dir seg path : jsstring) :
  forallb Str.isUnreserved s = true ->
  ~ In 47%N seg ->
  click (NavigateToProduct isAuthor s) (dir ++ 47%N :: seg)
  = Returns (dir ++ (if isAuthor then lit "/product.html" else lit "/product")
             ++ lit "?productId=" ++ s)
  /\ (s <> [] ->
      categoryUrl E path (Some (VStr s))
      = Returns (categoryBaseUrl E ++ lit "_path=" ++ path ++ lit "&category=" ++ s)).
Proof.
  intros Hs Hseg; split.
  - unfold click; rewrite (beforeLastSlash_app dir seg Hseg).
    rewrite (encodeURIComponent_unreserved s Hs); simpl.
    destruct isAuthor; now rewrite <- !app_assoc.
  - intros Hne; apply categoryUrl_category.
    + now destruct s.
    + exact (encodeURIComponent_unreserved s Hs).
Qed.

Lemma unreserved_text_is_sent_unchanged_witness :
  forallb Str.isUnreserved (lit "M1") = true
  /\ ~ In 47%N (lit "men-products")
  /\ click (NavigateToProduct true (lit "M1")) (lit "/us/en/men-products")
     = Returns (lit "/us/en/product.html?productId=M1").
Proof.
  assert (H1 : forallb Str.isUnreserved (lit "M1") = true) by reflexivity.
  assert (H2 : ~ In 47%N (lit "men-products")) by not_in.
  split; [exact H1|]; split; [exact H2|].
  exact (proj1 (unreserved_text_is_sent_unchanged offlinePlatform true (lit "M1")
                  (lit "/us/en") (lit "men-products") [] H1 H2)).
Defined.

(** ** The rendered block *)

Lemma firstAnchor_element (tag cls cur : jsstring) (ls : list handler) (kids : list node) :
  firstAnchor (Element tag cls [] cur ls kids) = querySelectorAnchor kids.
Proof.
  simpl; rewrite andb_false_r.
  induction kids as [|k kids IH]; [reflexivity|].
  simpl; destruct (firstAnchor k); [reflexivity | exact IH].
Qed.

Lemma querySelectorAnchor_app (l1 l2 : list node) :
  querySelectorAnchor (l1 ++ l2)
  = match querySelectorAnchor l1 with
    | Some a => Some a
    | None => querySelectorAnchor l2
    end.
Proof.
  induction l1 as [|k l1 IH]; [reflexivity|].
  simpl; destruct (firstAnchor k); [reflexivity | exact IH].
Qed.

Lemma querySelectorAnchor_map {A} (f : A -> node) (l : list A) :
  (forall x, firstAnchor (f x) = None) -> querySelectorAnchor (List.map f l) = None.
Proof.
  intros H; induction l as [|x l IH]; [reflexivity|].
  simpl; now rewrite H.
Qed.

Lemma textChild_no_anchor (s : jsstring) : querySelectorAnchor (textChild s) = None.
Proof. unfold textChild; now destruct (Str.isEmpty s). Qed.

Lemma chip_no_anchor (t : jsstring) : firstAnchor (chip t) = None.
Proof. unfold chip, element; rewrite firstAnchor_element; apply textChild_no_anchor. Qed.

Lemma header_no_anchor (tags : value) : querySelectorAnchor (header tags) = None.
Proof.
  rewrite header_cases.
  assert (H : querySelectorAnchor
                [element "div" "cpl-tags" (List.map chip (chipTexts tags))] = None).
  { cbn [querySelectorAnchor]; unfold element; rewrite firstAnchor_element.
    now rewrite (querySelectorAnchor_map chip _ chip_no_anchor). }
  destruct tags as [[|c s]|[|t l]]; try reflexivity; exact H.
Qed.

Section NoAnchor.
Variable E : platform.
Hypothesis picture_no_anchor :
  forall src alt eager bps, firstAnchor (createOptimizedPicture E src alt eager bps) = None.

Lemma buildCard_no_anchor (item : option Item.t) (isAuthor : bool) :
  firstAnchor (buildCard E item isAuthor) = None.
Proof.
  unfold buildCard; rewrite firstAnchor_element.
  cbn [querySelectorAnchor]; unfold element; rewrite !firstAnchor_element.
  assert (Hpic : querySelectorAnchor
                   match picture E match item with Some i => i | None => emptyItem end
                           isAuthor with
                   | Some p => [p]
                   | None => []
                   end = None).
  { unfold picture.
    destruct (imgUrl _ isAuthor) as [u|]; [|reflexivity].
    destruct (Str.isEmpty u); [reflexivity|].
    destruct (negb isAuthor && Str.startsWith u (lit "http")).
    - reflexivity.
    - cbn [querySelectorAnchor]; now rewrite picture_no_anchor. }
  rewrite Hpic; cbn [querySelectorAnchor].
  rewrite !firstAnchor_element, !textChild_no_anchor; reflexivity.
Qed.

Lemma gridChildren_no_anchor (items : list (option Item.t)) :
  querySelectorAnchor (gridChildren E items) = None.
Proof.
  unfold gridChildren; destruct (Nat.eqb (length items) 0).
  - reflexivity.
  - apply querySelectorAnchor_map; intros x; apply buildCard_no_anchor.
Qed.

(** X3.  Nothing that [decorate] renders holds a link, as long as the
    pictures of [createOptimizedPicture] hold none.  The block after a
    completed run has no [a[href]] left; a later run on it therefore takes
    its folder from the configuration alone, and with no folder configured
    it invokes the category-filtered strategy on an empty path, sends
    nothing and renders the empty state. *)
Theorem rendered_block_holds_no_link (b b' : block) :
  result (decorate E b) = Returns b' ->
  querySelectorAnchor (content b') = None
  /\ (forall cfg,
        authoredFolder b' cfg
        = orElse (get cfg (lit "folder"))
            (orElse (get cfg (lit "reference"))
               (orElse (get cfg (lit "path")) (VStr []))))
  /\ (get (readBlockConfig E b') (lit "folder") = None ->
      get (readBlockConfig E b') (lit "reference") = None ->
      get (readBlockConfig E b') (lit "path") = None ->
      decorate E b'
      = ([Invoke CategoryFiltered],
         Returns {| cqTags := cqTags b';
                    content := header (resolveTags E b')
                               ++ [element "div" "cpl-grid" [emptyMessage]] |})).
Proof.
  intros Hb'.
  assert (Hq : querySelectorAnchor (content b') = None).
  { destruct (resolveFolder E b) as [f|e] eqn:Hres.
    - destruct (fetchProducts_returns E f (resolveTags E b)) as [l Hl].
      rewrite (decorate_result E b f l Hres Hl) in Hb'; injection Hb' as <-.
      cbn [content]; unfold rendered.
      rewrite querySelectorAnchor_app, header_no_anchor.
      cbn [querySelectorAnchor]; unfold element; rewrite firstAnchor_element.
      now rewrite gridChildren_no_anchor.
    - rewrite decorate_resolved, Hres in Hb'; discriminate Hb'. }
  assert (Hcfg : forall cfg,
             authoredFolder b' cfg
             = orElse (get cfg (lit "folder"))
                 (orElse (get cfg (lit "reference"))
                    (orElse (get cfg (lit "path")) (VStr [])))).
  { intros cfg; unfold authoredFolder; now rewrite Hq. }
  split; [exact Hq|]; split; [exact Hcfg|].
  intros H1 H2 H3.
  assert (Hres : resolveFolder E b' = Returns []).
  { apply resolveFolder_empty; rewrite Hcfg, H1, H2, H3; reflexivity. }
  rewrite (decorate_returns E b' [] Hres); reflexivity.
Qed.
End NoAnchor.

Lemma rendered_block_holds_no_link_witness :
  (forall src alt eager bps,
     firstAnchor (createOptimizedPicture shoePlatform src alt eager bps) = None)
  /\ result (decorate shoePlatform shoeBlock) = Returns shoeRendered
  /\ querySelectorAnchor (content shoeRendered) = None.
Proof.
  assert (H1 : forall src alt eager bps,
             firstAnchor (createOptimizedPicture shoePlatform src alt eager bps) = None)
    by reflexivity.
  assert (H2 : result (decorate shoePlatform shoeBlock) = Returns shoeRendered)
    by reflexivity.
  split; [exact H1|]; split; [exact H2|].
  exact (proj1 (rendered_block_holds_no_link shoePlatform H1 shoeBlock shoeRendered H2)).
Defined.

(** ** Rendering again *)

(** The final state and the requests of [decorate] depend on the block
    through its [data-cq-tags] and the configuration resolved from it
    only: the content it had is replaced. *)
Lemma decorate_replaces_content (E : platform) (b b' : block) :
  cqTags b = cqTags b' ->
  resolveFolder E b = resolveFolder E b' ->
  resolveTags E b = resolveTags E b' ->
  decorate E b = decorate E b'.
Proof.
  intros Hc Hf Ht; now rewrite !decorate_resolved, Hc, Hf, Ht.
Qed.

(** What a completed run leaves: the attribute as it was, and the header
    and the grid of the fetched records for content. *)
Lemma decorate_leaves (E : platform) (b b1 : block) :
  result (decorate E b) = Returns b1 ->
  exists items,
    b1 = {| cqTags := cqTags b;
            content := rendered (resolveTags E b) (gridChildren E items) |}.
Proof.
  intros Hb1; rewrite decorate_resolved in Hb1.
  destruct (resolveFolder E b) as [folderHref|e]; [|discriminate Hb1].
  rewrite bind_lift_returns in Hb1.
  destruct (fetchProducts_returns E folderHref (resolveTags E b)) as [l Hl].
  rewrite (result_bind _ _ _ Hl) in Hb1; injection Hb1 as <-; now exists l.
Qed.

(** C8 as stated fails: the folder reference is authored in the content
    that the first rendering clears, so a second [decorate] of the same
    container resolves no folder and renders the empty state.  The reader
    of the configuration is the one of the rows of the block; it finds no
    row in the authored block, and none in the rendered one. *)
Lemma second_decorate_finds_no_folder :
  result (decorate shoeShop shoeBlock)
  = Returns {| cqTags := None;
               content := [element "div" "cpl-grid"
                             [buildCard shoeShop (Some shoe) false]] |}
  /\ result (decorate shoeShop
               {| cqTags := None;
                  content := [element "div" "cpl-grid"
                                [buildCard shoeShop (Some shoe) false]] |})
     = Returns {| cqTags := None;
                  content := [element "div" "cpl-grid" [emptyMessage]] |}
  /\ buildCard shoeShop (Some shoe) false <> emptyMessage.
Proof. repeat split; discriminate. Qed.

(** C8, amended.  A rendering replaces the content of the container and
    appends nothing to it: two containers with the same [data-cq-tags]
    that resolve to the same folder path and tags get the same requests
    and the same final state, whatever they held, and that state is the
    header and the grid only.  So a second [decorate] of the rendered
    container is identical to the first whenever it resolves the same
    folder path and tags.  It need not: the rendered content holds no link
    (as long as the pictures of [createOptimizedPicture] hold none), so a
    folder authored as a link is gone for the second [decorate], which
    takes its folder from what the configuration reader finds in the
    rendered container alone and, when that is no folder, sends no
    request and renders the empty state. *)
Theorem decorate_again_same_configuration (E : platform) :
  (forall b1 b2,
     cqTags b1 = cqTags b2 ->
     resolveFolder E b1 = resolveFolder E b2 ->
     resolveTags E b1 = resolveTags E b2 ->
     decorate E b1 = decorate E b2)
  /\ (forall b b1,
        result (decorate E b) = Returns b1 ->
        cqTags b1 = cqTags b
        /\ (exists kids,
              kids <> []
              /\ content b1
                 = header (resolveTags E b) ++ [element "div" "cpl-grid" kids])
        /\ (resolveFolder E b1 = resolveFolder E b ->
            resolveTags E b1 = resolveTags E b ->
            decorate E b1 = decorate E b /\ result (decorate E b1) = Returns b1)
        /\ ((forall src alt eager bps,
               firstAnchor (createOptimizedPicture E src alt eager bps) = None) ->
            querySelectorAnchor (content b1) = None
            /\ resolveFolder E b1
               = removeHtml
                   (normalizeFolder E
                      (orElse (get (readBlockConfig E b1) (lit "folder"))
                         (orElse (get (readBlockConfig E b1) (lit "reference"))
                            (orElse (get (readBlockConfig E b1) (lit "path"))
                               (VStr [])))))
            /\ (get (readBlockConfig E b1) (lit "folder") = None ->
                get (readBlockConfig E b1) (lit "reference") = None ->
                get (readBlockConfig E b1) (lit "path") = None ->
                decorate E b1
                = ([Invoke CategoryFiltered],
                   Returns {| cqTags := cqTags b;
                              content := header (resolveTags E b1)
                                         ++ [element "div" "cpl-grid"
                                               [emptyMessage]] |})))).
Proof.
  split; [intros b1 b2; apply decorate_replaces_content|].
  intros b b1 Hb1.
  destruct (decorate_leaves E b b1 Hb1) as [items Hleaves].
  assert (Hc : cqTags b1 = cqTags b) by now rewrite Hleaves.
  split; [exact Hc|]; split; [|split].
  - exists (gridChildren E items); split; [|now rewrite Hleaves].
    unfold gridChildren; destruct items; discriminate.
  - intros Hf Ht.
    assert (Heq : decorate E b1 = decorate E b)
      by (apply decorate_replaces_content; assumption).
    split; [exact Heq | now rewrite Heq].
  - intros Hpic.
    assert (Hq : querySelectorAnchor (content b1) = None).
    { rewrite Hleaves; cbn [content]; unfold rendered.
      rewrite querySelectorAnchor_app, header_no_anchor.
      cbn [querySelectorAnchor]; unfold element; rewrite firstAnchor_element.
      now rewrite (gridChildren_no_anchor E Hpic). }
    assert (Hcfg : authoredFolder b1 (readBlockConfig E b1)
                   = orElse (get (readBlockConfig E b1) (lit "folder"))
                       (orElse (get (readBlockConfig E b1) (lit "reference"))
                          (orElse (get (readBlockConfig E b1) (lit "path"))
                             (VStr [])))).
    { unfold authoredFolder; now rewrite Hq. }
    split; [exact Hq|]; split; [unfold resolveFolder; now rewrite Hcfg|].
    intros H1 H2 H3.
    assert (Hres : resolveFolder E b1 = Returns []).
    { apply resolveFolder_empty; rewrite Hcfg, H1, H2, H3; reflexivity. }
    rewrite (decorate_returns E b1 [] Hres), Hc; reflexivity.
Qed.

Lemma decorate_again_same_configuration_witness :
  (result (decorate shoeShop shoesBlock) = Returns shoesRendered
   /\ resolveFolder shoeShop shoesRendered = resolveFolder shoeShop shoesBlock
   /\ resolveTags shoeShop shoesRendered = resolveTags shoeShop shoesBlock
   /\ result (decorate shoeShop shoesRendered) = Returns shoesRendered)
  /\ (result (decorate shoeShop redBlock) = Returns redRendered
      /\ resolveFolder shoeShop redRendered = resolveFolder shoeShop redBlock
      /\ resolveTags shoeShop redRendered = resolveTags shoeShop redBlock
      /\ result (decorate shoeShop redRendered) = Returns redRendered).
Proof.
  destruct (decorate_again_same_configuration shoeShop) as [_ Hagain].
  split.
  - split; [reflexivity|]; split; [reflexivity|]; split; [reflexivity|].
    destruct (Hagain shoesBlock shoesRendered eq_refl) as (_ & _ & Hsame & _).
    exact (proj2 (Hsame eq_refl eq_refl)).
  - split; [reflexivity|]; split; [reflexivity|]; split; [reflexivity|].
    destruct (Hagain redBlock redRendered eq_refl) as (_ & _ & Hsame & _).
    exact (proj2 (Hsame eq_refl eq_refl)).
Defined.

(** X4.  The block after a completed run keeps its [data-cq-tags],
    holds at most one header and after it exactly one grid
    [div.cpl-grid]; the grid is the last child and is never empty (it
    holds the cards or the empty-state message). *)
Theorem rendered_block_shape (E : platform) (b b' : block) :
  result (decorate E b) = Returns b' ->
  cqTags b' = cqTags b
  /\ length (header (resolveTags E b)) <= 1
  /\ exists kids,
       content b' = header (resolveTags E b) ++ [element "div" "cpl-grid" kids]
       /\ kids <> []
       /\ gridOf b' = element "div" "cpl-grid" kids.
Proof.
  intros Hb'.
  destruct (resolveFolder E b) as [f|e] eqn:Hres;
    [|rewrite decorate_resolved, Hres in Hb'; discriminate Hb'].
  destruct (fetchProducts_returns E f (resolveTags E b)) as [l Hl].
  rewrite (decorate_result E b f l Hres Hl) in Hb'; injection Hb' as <-.
  split; [reflexivity|]; split.
  - rewrite header_cases; destruct (resolveTags E b) as [[|c s]|[|t ts]]; simpl; lia.
  - exists (gridChildren E l); split; [reflexivity|]; split.
    + unfold gridChildren; destruct l; [discriminate | discriminate].
    + unfold gridOf, rendered; cbn [content]; apply last_last.
Qed.

Lemma rendered_block_shape_witness :
  result (decorate shoePlatform shoeBlock) = Returns shoeRendered
  /\ cqTags shoeRendered = cqTags shoeBlock
  /\ length (header (resolveTags shoePlatform shoeBlock)) <= 1.
Proof.
  assert (H : result (decorate shoePlatform shoeBlock) = Returns shoeRendered)
    by reflexivity.
  destruct (rendered_block_shape shoePlatform shoeBlock shoeRendered H) as (H1 & H2 & _).
  split; [exact H|]; split; [exact H1 | exact H2].
Defined.

(** X5.  When the fetch returns a non-empty list of records the run
    completes and the grid holds one card per record, in the order of the
    response: the i-th child of the grid is the card of the i-th record,
    built for the environment of the run. *)
Theorem cards_follow_records (E : platform) (b : block) (folderHref : jsstring)
        (items : list (option Item.t)) :
  resolveFolder E b = Returns folderHref ->
  result (fetchProducts E folderHref (resolveTags E b)) = Returns items ->
  items <> [] ->
  exists b',
    result (decorate E b) = Returns b'
    /\ childrenOf (gridOf b')
       = List.map (fun item => buildCard E item (isAuthorEnvironment E)) items
    /\ length (childrenOf (gridOf b')) = length items
    /\ (forall i item,
          nth_error items i = Some item ->
          nth_error (childrenOf (gridOf b')) i
          = Some (buildCard E item (isAuthorEnvironment E))).
Proof.
  intros Hres Hl Hne.
  eexists; split; [exact (decorate_result E b folderHref items Hres Hl)|].
  assert (Hkids : childrenOf (gridOf {| cqTags := cqTags b;
                     content := rendered (resolveTags E b) (gridChildren E items) |})
                  = List.map (fun item => buildCard E item (isAuthorEnvironment E)) items).
  { unfold gridOf, rendered; cbn [content]; rewrite last_last.
    unfold gridChildren; destruct items; [congruence | reflexivity]. }
  rewrite Hkids; split; [reflexivity|]; split; [apply length_map|].
  intros i item Hi; now rewrite nth_error_map, Hi.
Qed.

Lemma cards_follow_records_witness :
  resolveFolder shoePlatform shoeBlock = Returns (lit "/content/cat/shoes")
  /\ result (fetchProducts shoePlatform (lit "/content/cat/shoes")
               (resolveTags shoePlatform shoeBlock)) = Returns [Some shoe]
  /\ [Some shoe] <> []
  /\ exists b',
       result (decorate shoePlatform shoeBlock) = Returns b'
       /\ childrenOf (gridOf b')
          = [buildCard shoePlatform (Some shoe) (isAuthorEnvironment shoePlatform)].
Proof.
  assert (H1 : resolveFolder shoePlatform shoeBlock = Returns (lit "/content/cat/shoes"))
    by reflexivity.
  assert (H2 : result (fetchProducts shoePlatform (lit "/content/cat/shoes")
                         (resolveTags shoePlatform shoeBlock)) = Returns [Some shoe])
    by reflexivity.
  assert (H3 : [Some shoe] <> []) by discriminate.
  split; [exact H1|]; split; [exact H2|]; split; [exact H3|].
  destruct (cards_follow_records shoePlatform shoeBlock (lit "/content/cat/shoes")
              [Some shoe] H1 H2 H3) as (b' & Hb & Hk & _).
  exists b'; split; [exact Hb | exact Hk].
Defined.

(** ** What a run invokes, requests and logs *)

(** X6.  A run whose folder resolves invokes exactly one strategy,
    the one the marker [/dam/luma3/] selects, and sends at most one
    request.  It sends none exactly when the folder path is empty, or when
    the category-filtered strategy cannot encode its category parameter. *)
Theorem one_strategy_one_request (E : platform) (b : block) (folderHref : jsstring) :
  resolveFolder E b = Returns folderHref ->
  strategiesOf (trace (decorate E b)) = [strategyOf folderHref]
  /\ length (requestsOf (trace (decorate E b))) <= 1
  /\ (requestsOf (trace (decorate E b)) = []
      <-> folderHref = []
          \/ (isLegacyLuma3 folderHref = false
              /\ exists e, categoryUrl E folderHref (Some (resolveTags E b)) = Throws e)).
Proof.
  intros Hres; split; [|split].
  - exact (decorate_strategies E b folderHref Hres).
  - run_cases E b folderHref Hres; simpl; lia.
  - pose proof (decorate_run E b folderHref Hres) as H; cbv zeta in H.
    destruct H as [[Hf H]|[(e & H & Hs & Hu)|[(tail & j & Hj & H)|(tail & e & Hf & H)]]];
      rewrite H; cbn [trace fst requestsOf]; split; intros Hno;
      try discriminate Hno; auto.
    + right; split; [|now exists e].
      unfold strategyOf in Hs; destruct (isLegacyLuma3 folderHref);
        [discriminate Hs | reflexivity].
    + exfalso; revert H; rewrite (decorate_returns E b folderHref Hres).
      destruct Hno as [->|(Hleg & e & Hu)]; [discriminate|].
      unfold fetchProducts; rewrite Hleg.
      destruct folderHref as [|c f]; [discriminate|].
      rewrite fetchCategoryFilteredProducts_request, Hu by discriminate.
      discriminate.
    + exfalso; revert H; rewrite (decorate_returns E b folderHref Hres).
      destruct Hno as [->|(Hleg & e' & Hu)]; [discriminate|].
      unfold fetchProducts; rewrite Hleg.
      destruct folderHref as [|c f]; [discriminate|].
      rewrite fetchCategoryFilteredProducts_request, Hu by discriminate.
      discriminate.
Qed.

Lemma one_strategy_one_request_witness :
  resolveFolder shirtsPlatform (emptyBlock None) = Returns (lit "/content/cat/shirts")
  /\ strategiesOf (trace (decorate shirtsPlatform (emptyBlock None))) = [CategoryFiltered]
  /\ length (requestsOf (trace (decorate shirtsPlatform (emptyBlock None)))) <= 1.
Proof.
  assert (H : resolveFolder shirtsPlatform (emptyBlock None)
              = Returns (lit "/content/cat/shirts")) by reflexivity.
  destruct (one_strategy_one_request shirtsPlatform (emptyBlock None)
              (lit "/content/cat/shirts") H) as (H1 & H2 & _).
  split; [exact H|]; split; [exact H1 | exact H2].
Defined.

(** X7.  Every request of a run is a GET carrying the two no-cache
    headers, and its address is the endpoint of the selected strategy
    followed by [_path=] and the resolved folder path (and then at most
    the category parameter). *)
Theorem requests_are_uncached_gets (E : platform) (b : block) (folderHref : jsstring) :
  resolveFolder E b = Returns folderHref ->
  Forall (fun r =>
            method r = lit "GET"
            /\ headers r = [ (lit "Cache-Control", lit "no-cache, no-store, must-revalidate");
                             (lit "Pragma", lit "no-cache") ]
            /\ exists tail,
                 url r = baseUrlOf E (strategyOf folderHref) ++ lit "_path="
                         ++ folderHref ++ tail)
    (requestsOf (trace (decorate E b))).
Proof.
  intros Hres; run_cases E b folderHref Hres; cbn [trace fst requestsOf];
    repeat constructor; eexists; reflexivity.
Qed.

Lemma requests_are_uncached_gets_witness :
  resolveFolder shirtsPlatform (emptyBlock None) = Returns (lit "/content/cat/shirts")
  /\ Forall (fun r => method r = lit "GET")
       (requestsOf (trace (decorate shirtsPlatform (emptyBlock None)))).
Proof.
  assert (H : resolveFolder shirtsPlatform (emptyBlock None)
              = Returns (lit "/content/cat/shirts")) by reflexivity.
  split; [exact H|].
  eapply Forall_impl;
    [|exact (requests_are_uncached_gets shirtsPlatform (emptyBlock None)
               (lit "/content/cat/shirts") H)].
  intros r Hr; exact (proj1 Hr).
Defined.

(** X8.  A run logs at most one error, and logs it under the message
    of the strategy it invoked.  After a logged error the block shows the
    header and the empty-state message.  When every request fails and the
    folder path is not empty, exactly one error is logged. *)
Theorem failure_is_logged_once (E : platform) (b : block) (folderHref : jsstring) :
  resolveFolder E b = Returns folderHref ->
  length (errorsOf (trace (decorate E b))) <= 1
  /\ Forall (fun p => fst p = errorOf (strategyOf folderHref))
       (errorsOf (trace (decorate E b)))
  /\ (errorsOf (trace (decorate E b)) <> [] ->
      result (decorate E b)
      = Returns {| cqTags := cqTags b;
                   content := header (resolveTags E b)
                              ++ [element "div" "cpl-grid" [emptyMessage]] |})
  /\ (folderHref <> [] -> (forall r, fails E r) ->
      length (errorsOf (trace (decorate E b))) = 1).
Proof.
  intros Hres; split; [|split; [|split]].
  - run_cases E b folderHref Hres; simpl; lia.
  - run_cases E b folderHref Hres; cbn [trace fst errorsOf]; repeat constructor.
  - run_cases E b folderHref Hres; cbn [trace fst errorsOf result snd];
      intros Hne; try reflexivity; congruence.
  - intros Hne Hfail.
    pose proof (decorate_run E b folderHref Hres) as H; cbv zeta in H.
    destruct H as [[-> _]|[(e & -> & _)|[(tail & j & Hj & _)|(tail & e & _ & ->)]]];
      try reflexivity; [congruence|].
    destruct (Hfail (getRequest (baseUrlOf E (strategyOf folderHref) ++ lit "_path="
                                 ++ folderHref ++ tail))) as [H|H];
      rewrite H in Hj; discriminate Hj.
Qed.

Lemma failure_is_logged_once_witness :
  resolveFolder offlinePlatform shirtsLink = Returns (lit "/content/cat/shirts")
  /\ lit "/content/cat/shirts" <> []
  /\ (forall r, fails offlinePlatform r)
  /\ length (errorsOf (trace (decorate offlinePlatform shirtsLink))) = 1.
Proof.
  assert (H : resolveFolder offlinePlatform shirtsLink
              = Returns (lit "/content/cat/shirts")) by reflexivity.
  assert (H1 : lit "/content/cat/shirts" <> []) by discriminate.
  assert (H2 : forall r, fails offlinePlatform r) by (intros r; now left).
  split; [exact H|]; split; [exact H1|]; split; [exact H2|].
  exact (proj2 (proj2 (proj2 (failure_is_logged_once offlinePlatform shirtsLink
                                (lit "/content/cat/shirts") H))) H1 H2).
Defined.

(** ** An array for folder *)

(** X9.  The resolution of the folder throws exactly when the authored
    folder is an array: an array is truthy and has no [endsWith], so the
    test for the [.html] extension throws a TypeError, and [decorate]
    throws it before any strategy is invoked.  With a string for folder
    the resolution returns a path, and the run goes on to invoke the
    strategy of that path. *)
Theorem decorate_throws_on_array_folder (E : platform) (b : block) :
  (forall l, authoredFolder b (readBlockConfig E b) = VArr l ->
     resolveFolder E b = Throws TypeError
     /\ decorate E b = ([], Throws TypeError))
  /\ (forall s, authoredFolder b (readBlockConfig E b) = VStr s ->
        exists folderHref,
          resolveFolder E b = Returns folderHref
          /\ strategiesOf (trace (decorate E b)) = [strategyOf folderHref])
  /\ (forall e, resolveFolder E b = Throws e ->
        e = TypeError /\ exists l, authoredFolder b (readBlockConfig E b) = VArr l).
Proof.
  assert (Harr : forall l, authoredFolder b (readBlockConfig E b) = VArr l ->
                 resolveFolder E b = Throws TypeError).
  { intros l H; unfold resolveFolder; rewrite H; reflexivity. }
  assert (Hstr : forall s, authoredFolder b (readBlockConfig E b) = VStr s ->
                 exists folderHref, resolveFolder E b = Returns folderHref).
  { intros s H; unfold resolveFolder; rewrite H; unfold normalizeFolder, removeHtml.
    destruct (negb (Str.isEmpty s) && Str.startsWith s (lit "http"));
      [destruct (pathname E s) as [p|]|];
      match goal with
      | |- context [if ?c then _ else _] => destruct c
      end; eexists; reflexivity. }
  split; [|split].
  - intros l H; split; [exact (Harr l H)|].
    rewrite decorate_resolved, (Harr l H); reflexivity.
  - intros s H; destruct (Hstr s H) as [f Hf]; exists f.
    split; [exact Hf | exact (decorate_strategies E b f Hf)].
  - intros e He.
    destruct (authoredFolder b (readBlockConfig E b)) as [s|l] eqn:Hv.
    + destruct (Hstr s eq_refl) as [f Hf]; rewrite Hf in He; discriminate He.
    + rewrite (Harr l eq_refl) in He; injection He as <-.
      split; [reflexivity | now exists l].
Qed.

Lemma decorate_throws_on_array_folder_witness :
  authoredFolder (emptyBlock None) (readBlockConfig arrayPlatform (emptyBlock None))
  = VArr [lit "/content/cat/shirts"]
  /\ decorate arrayPlatform (emptyBlock None) = ([], Throws TypeError).
Proof.
  assert (H : authoredFolder (emptyBlock None)
                (readBlockConfig arrayPlatform (emptyBlock None))
              = VArr [lit "/content/cat/shirts"]) by reflexivity.
  split; [exact H|].
  exact (proj2 (proj1 (decorate_throws_on_array_folder arrayPlatform (emptyBlock None))
                  _ H)).
Defined.

(** ** The marker of legacy mode *)

(** X10.  Legacy mode is a substring test on the resolved folder
    path: the test holds exactly when the path can be cut into a part
    before [/dam/luma3/], the marker, and a part after it, wherever the
    marker stands; and the run invokes the legacy strategy in exactly that
    case. *)
Theorem legacy_mode_is_substring_test
  (E : platform) (b : block) (folderHref : jsstring) :
  resolveFolder E b = Returns folderHref ->
  (isLegacyLuma3 folderHref = true
   <-> exists l r, folderHref = l ++ lit "/dam/luma3/" ++ r)
  /\ (strategiesOf (trace (decorate E b)) = [Legacy]
      <-> exists l r, folderHref = l ++ lit "/dam/luma3/" ++ r).
Proof.
  intros Hres.
  assert (Hiff : isLegacyLuma3 folderHref = true
                 <-> exists l r, folderHref = l ++ lit "/dam/luma3/" ++ r).
  { split.
    - unfold isLegacyLuma3; intros H; apply andb_true_iff in H as [_ H].
      exact (StrFacts.includes_inv _ _ H).
    - intros (l & r & ->); apply isLegacyLuma3_includes, StrFacts.includes_app. }
  split; [exact Hiff|].
  rewrite (decorate_strategies E b folderHref Hres), <- Hiff; unfold strategyOf.
  destruct (isLegacyLuma3 folderHref); split; intros H;
    try reflexivity; discriminate H.
Qed.

Lemma legacy_mode_is_substring_test_witness :
  resolveFolder legacyPlatform menBlock = Returns (lit "/content/dam/luma3/men-products")
  /\ strategiesOf (trace (decorate legacyPlatform menBlock)) = [Legacy].
Proof.
  assert (H : resolveFolder legacyPlatform menBlock
              = Returns (lit "/content/dam/luma3/men-products")) by reflexivity.
  split; [exact H|].
  apply (proj2 (legacy_mode_is_substring_test legacyPlatform menBlock
                  (lit "/content/dam/luma3/men-products") H)).
  exists (lit "/content"), (lit "men-products"); reflexivity.
Defined.

(** ** The chips of the header *)

Lemma trimStart_head (s : jsstring) :
  Str.trimStart s = [] \/ Str.isWhiteSpace (hd 32%N (Str.trimStart s)) = false.
Proof.
  induction s as [|c s IH]; [now left|].
  simpl; destruct (Str.isWhiteSpace c) eqn:Hc; [exact IH | right; exact Hc].
Qed.

Lemma trimStart_fixed (s : jsstring) :
  Str.isWhiteSpace (hd 32%N s) = false -> Str.trimStart s = s.
Proof. destruct s as [|c s]; [reflexivity|]; simpl; now intros ->. Qed.

Lemma trimStart_suffix (s : jsstring) : exists p, s = p ++ Str.trimStart s.
Proof.
  induction s as [|c s [p IH]]; [now exists []|].
  simpl; destruct (Str.isWhiteSpace c).
  - exists (c :: p); simpl; now f_equal.
  - now exists [].
Qed.

Lemma trimEnd_prefix (s : jsstring) : exists q, s = Str.trimEnd s ++ q.
Proof.
  unfold Str.trimEnd; destruct (trimStart_suffix (rev s)) as [p Hp].
  exists (rev p).
  rewrite <- rev_app_distr, <- Hp; symmetry; apply rev_involutive.
Qed.

Lemma last_rev_hd (s : jsstring) (d : N) : last (rev s) d = hd d s.
Proof. destruct s as [|c s]; [reflexivity|]; simpl; apply last_last. Qed.

Lemma hd_rev_last (s : jsstring) (d : N) : hd d (rev s) = last s d.
Proof. rewrite <- (rev_involutive s) at 2; symmetry; apply last_rev_hd. Qed.

(** A trimmed string is empty, or begins and ends with a code unit that
    is not white space. *)
Lemma trim_ends (s : jsstring) :
  Str.trim s = []
  \/ (Str.isWhiteSpace (hd 32%N (Str.trim s)) = false
      /\ Str.isWhiteSpace (last (Str.trim s) 32%N) = false).
Proof.
  unfold Str.trim.
  destruct (Str.trimEnd (Str.trimStart s)) as [|c t] eqn:Ht; [now left|right].
  rewrite <- Ht; split.
  - destruct (trimEnd_prefix (Str.trimStart s)) as [q Hq].
    rewrite Ht in Hq; simpl in Hq.
    destruct (trimStart_head s) as [H|H]; [rewrite H in Hq; discriminate Hq|].
    rewrite Hq in H; rewrite Ht; exact H.
  - unfold Str.trimEnd in *; rewrite last_rev_hd.
    destruct (trimStart_head (rev (Str.trimStart s))) as [H|H]; [|exact H].
    rewrite H in Ht; discriminate Ht.
Qed.

Lemma trim_fixed (s : jsstring) :
  Str.isWhiteSpace (hd 32%N s) = false ->
  Str.isWhiteSpace (last s 32%N) = false ->
  Str.trim s = s.
Proof.
  intros Hh Hl; unfold Str.trim, Str.trimEnd.
  rewrite (trimStart_fixed s Hh), trimStart_fixed, rev_involutive; [reflexivity|].
  now rewrite hd_rev_last.
Qed.

(** X11.  Every chip of the header shows a trimmed tag that is not
    empty: its text begins and ends with a code unit that is not white
    space, trimming it again changes nothing, and it is the trimmed form of
    an entry of the tag list.  There are no more chips than entries, and
    every entry that is not blank has its chip. *)
Theorem chips_are_trimmed_tags (tags : value) :
  Forall (fun t => Str.isWhiteSpace (hd 32%N t) = false
                   /\ Str.isWhiteSpace (last t 32%N) = false
                   /\ Str.trim t = t
                   /\ exists raw, In raw (tagList tags) /\ t = Str.trim raw)
    (chipTexts tags)
  /\ length (chipTexts tags) <= length (tagList tags)
  /\ (forall t, In t (tagList tags) -> Str.trim t <> [] -> In (Str.trim t) (chipTexts tags)).
Proof.
  unfold chipTexts; split; [|split].
  - apply Forall_forall; intros t Ht.
    apply filter_In in Ht as [Hin Hne].
    apply in_map_iff in Hin as (raw & <- & Hraw).
    destruct (trim_ends raw) as [H|[Hh Hl]]; [rewrite H in Hne; discriminate Hne|].
    split; [exact Hh|]; split; [exact Hl|]; split; [now apply trim_fixed|].
    now exists raw.
  - rewrite <- (length_map Str.trim (tagList tags)); apply filter_length_le.
  - intros t Hin Hne; apply filter_In; split; [now apply in_map|].
    now destruct (Str.trim t).
Qed.

Lemma chips_are_trimmed_tags_witness :
  In (lit " small ") (tagList sizes)
  /\ Str.trim (lit " small ") <> []
  /\ In (lit "small") (chipTexts sizes).
Proof.
  assert (H1 : In (lit " small ") (tagList sizes)) by (left; reflexivity).
  assert (H2 : Str.trim (lit " small ") <> []) by discriminate.
  split; [exact H1|]; split; [exact H2|].
  exact (proj2 (proj2 (chips_are_trimmed_tags sizes)) (lit " small ") H1 H2).
Defined.

(** ** Tags as a string and as an array *)

Lemma join_split (sep : N) (s : jsstring) : Str.join [sep] (Str.split sep s) = s.
Proof.
  induction s as [|c s IH]; [reflexivity|].
  simpl Str.split; destruct (N.eqb_spec c sep) as [->|Hc].
  - rewrite StrFacts.join_cons by apply StrFacts.split_not_nil.
    simpl; now rewrite IH.
  - pose proof (StrFacts.split_not_nil sep s) as Hne.
    destruct (Str.split sep s) as [|w ws]; [congruence|].
    destruct ws as [|w' ws].
    + simpl in *; now rewrite IH.
    + change (Str.join [sep] ((c :: w) :: w' :: ws))
        with (c :: Str.join [sep] (w :: w' :: ws)).
      now rewrite IH.
Qed.

(** X12.  A non-empty tags string and the array of its
    comma-separated pieces are interchangeable: they give the same request
    address, the same header and the same run of the category-filtered
    strategy. *)
Theorem split_tags_behave_as_joined (E : platform) (path s : jsstring) :
  s <> [] ->
  categoryUrl E path (Some (VArr (Str.split 44 s))) = categoryUrl E path (Some (VStr s))
  /\ header (VArr (Str.split 44 s)) = header (VStr s)
  /\ fetchCategoryFilteredProducts E path (Some (VArr (Str.split 44 s)))
     = fetchCategoryFilteredProducts E path (Some (VStr s)).
Proof.
  intros Hne.
  assert (Hurl : categoryUrl E path (Some (VArr (Str.split 44 s)))
                 = categoryUrl E path (Some (VStr s))).
  { unfold categoryUrl, categoryParam.
    change (lit ",") with [44%N]; rewrite join_split.
    now destruct s. }
  split; [exact Hurl|]; split.
  - rewrite !header_cases.
    pose proof (StrFacts.split_not_nil 44 s) as Hsplit.
    destruct (Str.split 44 s) as [|w ws] eqn:Hs; [congruence|].
    destruct s as [|c s]; [congruence|].
    unfold chipTexts, tagList; now rewrite Hs.
  - unfold fetchCategoryFilteredProducts; now rewrite Hurl.
Qed.

Lemma split_tags_behave_as_joined_witness :
  lit "red, blue" <> []
  /\ categoryUrl shirtsPlatform (lit "/content/cat/shirts")
       (Some (VArr [lit "red"; lit " blue"]))
     = categoryUrl shirtsPlatform (lit "/content/cat/shirts")
         (Some (VStr (lit "red, blue"))).
Proof.
  assert (H : lit "red, blue" <> []) by discriminate.
  split; [exact H|].
  exact (proj1 (split_tags_behave_as_joined shirtsPlatform (lit "/content/cat/shirts")
                  (lit "red, blue") H)).
Defined.

(** ** The prefix of the category label *)

Lemma replaceLeadingCI_luma (p rest : jsstring) :
  List.map Str.canonicalize p = lit "LUMA:" \/
  List.map Str.canonicalize p = lit "LUMAPRODUCTS:" ->
  Str.replaceLeadingCI [lit "luma:"; lit "lumaproducts:"] (p ++ rest) = rest.
Proof.
  intros [Hp|Hp]; unfold Str.replaceLeadingCI.
  - now rewrite (matchPrefixCI_app (lit "luma:") p rest Hp).
  - rewrite (matchPrefixCI_app (lit "lumaproducts:") p rest Hp).
    destruct p as [|c0 [|c1 [|c2 [|c3 [|c4 p]]]]]; try discriminate Hp.
    injection Hp as H0 H1 H2 H3 H4 _.
    cbn [app Str.matchPrefixCI lit list_ascii_of_string List.map].
    rewrite H0, H1, H2, H3, H4; reflexivity.
Qed.

(** X13.  The prefix [luma:] or [lumaproducts:], in any letter
    case, is removed from the first category only: the label is the first
    category without its prefix joined with the other categories as they
    are, with every slash spaced out and the whole in upper case. *)
Theorem prefix_leaves_first_category_only
  (E : platform) (item : Item.t) (p first : jsstring) (others : list jsstring) :
  List.map Str.canonicalize p = lit "LUMA:" \/
  List.map Str.canonicalize p = lit "LUMAPRODUCTS:" ->
  Item.category item = Some ((p ++ first) :: others) ->
  categoryLabel E item
  = Str.toUpperCase (unicodeUpper E)
      (Str.replaceAllSlash (Str.join (lit ", ") (first :: others))).
Proof.
  intros Hp Hcat; unfold categoryLabel, categoryText; rewrite Hcat.
  cbn [length Nat.eqb].
  assert (Hjoin : Str.join (lit ", ") ((p ++ first) :: others)
                  = p ++ Str.join (lit ", ") (first :: others)).
  { destruct others; simpl; [reflexivity | now rewrite <- app_assoc]. }
  now rewrite Hjoin, (replaceLeadingCI_luma p _ Hp).
Qed.

Lemma prefix_leaves_first_category_only_witness :
  List.map Str.canonicalize (lit "Luma:") = lit "LUMA:"
  /\ Item.category menShoes = Some ((lit "Luma:" ++ lit "men/shoes") :: [lit "luma:sale"])
  /\ categoryLabel offlinePlatform menShoes = lit "MEN / SHOES, LUMA:SALE".
Proof.
  assert (H1 : List.map Str.canonicalize (lit "Luma:") = lit "LUMA:") by reflexivity.
  assert (H2 : Item.category menShoes
               = Some ((lit "Luma:" ++ lit "men/shoes") :: [lit "luma:sale"]))
    by reflexivity.
  split; [exact H1|]; split; [exact H2|].
  rewrite (prefix_leaves_first_category_only offlinePlatform menShoes (lit "Luma:")
             (lit "men/shoes") [lit "luma:sale"] (or_introl H1) H2).
  reflexivity.
Defined.

(** ** The order of the chips *)

Lemma split_app (sep : N) (s r : jsstring) :
  Str.split sep (s ++ sep :: r) = Str.split sep s ++ Str.split sep r.
Proof.
  induction s as [|c s IH]; simpl.
  - now rewrite N.eqb_refl.
  - destruct (N.eqb c sep); [now rewrite IH|].
    rewrite IH; pose proof (StrFacts.split_not_nil sep s) as Hne.
    destruct (Str.split sep s) as [|w ws]; [congruence | reflexivity].
Qed.

(** X14.  The chips keep the order of the tags: the chips of
    [s,r] are those of [s] followed by those of [r], the chips of an array
    [l ++ l'] are those of [l] followed by those of [l'], and a tags string
    with a comma always has its header. *)
Theorem chips_keep_the_order_of_tags (s r : jsstring) (l l' : list jsstring) :
  chipTexts (VStr (s ++ 44%N :: r)) = chipTexts (VStr s) ++ chipTexts (VStr r)
  /\ chipTexts (VArr (l ++ l')) = chipTexts (VArr l) ++ chipTexts (VArr l')
  /\ header (VStr (s ++ 44%N :: r))
     = [element "div" "cpl-tags"
          (List.map chip (chipTexts (VStr s)) ++ List.map chip (chipTexts (VStr r)))].
Proof.
  assert (Hstr : chipTexts (VStr (s ++ 44%N :: r))
                 = chipTexts (VStr s) ++ chipTexts (VStr r)).
  { unfold chipTexts, tagList; now rewrite split_app, map_app, filter_app. }
  split; [exact Hstr|]; split.
  - unfold chipTexts, tagList; now rewrite map_app, filter_app.
  - rewrite header_cases, Hstr, map_app; now destruct s.
Qed.

(** ** The picture of a card *)

(** X15.  The picture of a card follows the environment.  On
    author the card does not depend on [_publishUrl], on publish it does not
    depend on [_authorUrl].  On publish an address that begins with [http] is
    shown by a plain [picture] holding one lazy [img] with that address,
    without [createOptimizedPicture]; on author, and on publish for any
    other non-empty address, the picture is the one
    [createOptimizedPicture] makes for the three breakpoints, not eager;
    the alternative text is the name, or [Product image].  With no image or
    empty addresses the media box stays empty. *)
Theorem card_image_follows_environment
  (E : platform) (item : Item.t) (a p : option jsstring) :
  (forall p',
     buildCard E (Some (withImage item (Some {| Image._authorUrl := a;
                                                Image._publishUrl := p |}))) true
     = buildCard E (Some (withImage item (Some {| Image._authorUrl := a;
                                                  Image._publishUrl := p' |}))) true)
  /\ (forall a',
        buildCard E (Some (withImage item (Some {| Image._authorUrl := a;
                                                   Image._publishUrl := p |}))) false
        = buildCard E (Some (withImage item (Some {| Image._authorUrl := a';
                                                     Image._publishUrl := p |}))) false)
  /\ (forall u,
        Str.startsWith u (lit "http") = true ->
        mediaOf (buildCard E (Some (withImage item
                   (Some {| Image._authorUrl := a; Image._publishUrl := Some u |}))) false)
        = [element "picture" ""
             [Element (lit "img") []
                [ (lit "src", u);
                  (lit "alt", strOr (Item.name item) (lit "Product image"));
                  (lit "loading", lit "lazy") ] [] [] []]])
  /\ (forall u,
        u <> [] ->
        mediaOf (buildCard E (Some (withImage item
                   (Some {| Image._authorUrl := Some u; Image._publishUrl := p |}))) true)
        = [createOptimizedPicture E u (strOr (Item.name item) (lit "Product image"))
             false breakpoints])
  /\ (forall u,
        u <> [] -> Str.startsWith u (lit "http") = false ->
        mediaOf (buildCard E (Some (withImage item
                   (Some {| Image._authorUrl := a; Image._publishUrl := Some u |}))) false)
        = [createOptimizedPicture E u (strOr (Item.name item) (lit "Product image"))
             false breakpoints])
  /\ (forall isAuthor,
        mediaOf (buildCard E (Some (withImage item None)) isAuthor) = []
        /\ mediaOf (buildCard E (Some (withImage item
                       (Some {| Image._authorUrl := Some []; Image._publishUrl := Some [] |})))
                     isAuthor) = []).
Proof.
  split; [|split; [|split; [|split; [|split]]]].
  - reflexivity.
  - reflexivity.
  - intros u Hu; unfold mediaOf, buildCard, element; cbn [childrenOf].
    unfold picture, imgUrl.
    cbn [withImage Item.image Item.name Image._publishUrl negb andb].
    rewrite Hu; destruct u; [discriminate Hu | reflexivity].
  - intros u Hu; destruct u; [congruence | reflexivity].
  - intros u Hne Hu; unfold mediaOf, buildCard, element; cbn [childrenOf].
    unfold picture, imgUrl.
    cbn [withImage Item.image Item.name Image._publishUrl negb andb].
    rewrite Hu; destruct u; [congruence | reflexivity].
  - intros isAuthor; split; [reflexivity|]; now destruct isAuthor.
Qed.

Lemma card_image_follows_environment_witness :
  Str.startsWith (lit "http://x/img.png") (lit "http") = true
  /\ mediaOf (buildCard offlinePlatform (Some shoe) false)
     = [element "picture" ""
          [Element (lit "img") []
             [ (lit "src", lit "http://x/img.png"); (lit "alt", lit "Shoe");
               (lit "loading", lit "lazy") ] [] [] []]].
Proof.
  assert (H : Str.startsWith (lit "http://x/img.png") (lit "http") = true) by reflexivity.
  split; [exact H|].
  exact (proj1 (proj2 (proj2 (card_image_follows_environment offlinePlatform shoe
                                None None))) (lit "http://x/img.png") H).
Defined.

(** ** Precedence of the authored values *)

(** X16.  What is authored in the block comes before the
    configuration rows.  A link with a non-empty [href] fixes the folder
    whatever the configuration holds, and a link with an empty [href] does
    so by its trimmed text; only with no usable link is the configured
    [folder] taken.  In the same way a non-empty [data-cq-tags] gives the
    tags, and only without it the configured [tags]. *)
Theorem link_and_dataset_come_first (E : platform) (b : block) :
  (forall a h,
     querySelectorAnchor (content b) = Some a -> href a = Some h -> h <> [] ->
     resolveFolder E b = removeHtml (normalizeFolder E (VStr h)))
  /\ (forall a,
        querySelectorAnchor (content b) = Some a ->
        strOr (href a) [] = [] -> Str.trim (textContent a) <> [] ->
        resolveFolder E b
        = removeHtml (normalizeFolder E (VStr (Str.trim (textContent a)))))
  /\ (forall v,
        (forall a, querySelectorAnchor (content b) = Some a ->
                   strOr (href a) (Str.trim (textContent a)) = []) ->
        get (readBlockConfig E b) (lit "folder") = Some v -> truthy v = true ->
        authoredFolder b (readBlockConfig E b) = v)
  /\ (forall s,
        cqTags b = Some s -> s <> [] -> resolveTags E b = VStr s)
  /\ (forall v,
        strOr (cqTags b) [] = [] ->
        get (readBlockConfig E b) (lit "tags") = Some v -> truthy v = true ->
        resolveTags E b = v).
Proof.
  split; [|split; [|split; [|split]]].
  - intros a h Ha Hh Hne; unfold resolveFolder, authoredFolder.
    rewrite Ha, Hh; unfold strOr; destruct h; [congruence | reflexivity].
  - intros a Ha Hh Ht; unfold resolveFolder, authoredFolder; rewrite Ha.
    unfold strOr in *; destruct (href a) as [[|c h]|]; try discriminate Hh;
      destruct (Str.trim (textContent a)); try congruence; reflexivity.
  - intros v Hnone Hget Hv; unfold authoredFolder.
    destruct (querySelectorAnchor (content b)) as [a|].
    + rewrite (Hnone a eq_refl); cbn [Str.isEmpty].
      rewrite Hget; unfold orElse; now rewrite Hv.
    + cbn [Str.isEmpty]; rewrite Hget; unfold orElse; now rewrite Hv.
  - intros s Hs Hne; unfold resolveTags, authoredTags; rewrite Hs.
    destruct s; [congruence | reflexivity].
  - intros v Hds Hget Hv; unfold resolveTags, authoredTags, orElse.
    rewrite Hget, Hv.
    destruct (cqTags b) as [[|c s]|]; try discriminate Hds; reflexivity.
Qed.

Lemma link_and_dataset_come_first_witness :
  cqTags taggedShirts = Some (lit "red, blue")
  /\ lit "red, blue" <> []
  /\ resolveTags taggedPlatform taggedShirts = VStr (lit "red, blue").
Proof.
  assert (H1 : cqTags taggedShirts = Some (lit "red, blue")) by reflexivity.
  assert (H2 : lit "red, blue" <> []) by discriminate.
  split; [exact H1|]; split; [exact H2|].
  exact (proj1 (proj2 (proj2 (proj2 (link_and_dataset_come_first taggedPlatform
                                       taggedShirts)))) (lit "red, blue") H1 H2).
Defined.
